(** * Request admission limiter of the finance API

    Shallow embedding of [src/api/middleware/rate_limit.py]: the
    identity resolver [get_client_id], the sliding window counter
    [check_rate_limit] and the ASGI entry point [__call__] of
    [RateLimitMiddleware], together with a model of the part of Redis
    the middleware talks to (sorted sets and key expiry). *)

From Stdlib Require Import ZArith String Ascii List.
From stdpp Require Import base decidable option strings pretty gmap fin_maps fin_sets.

Local Open Scope Z_scope.
Local Open Scope string_scope.

(** ** Python strings

    Header values reach the middleware decoded as Latin-1, so every
    character is a code point below 256 and a [string] of [ascii]
    characters represents them exactly. *)
Module PyStr.

(** [str.isspace] on one Latin-1 character: TAB..CR, the separators
    FS..US, SPACE, NEL and NBSP. *)
Definition isspace (c : ascii) : bool :=
  let n := N_of_ascii c in
  ((9 <=? n) && (n <=? 13) || (28 <=? n) && (n <=? 32)
   || (n =? 133) || (n =? 160))%N.

Fixpoint lstrip (s : string) : string :=
  match s with
  | EmptyString => EmptyString
  | String c r => if isspace c then lstrip r else s
  end.

Fixpoint rstrip (s : string) : string :=
  match s with
  | EmptyString => EmptyString
  | String c r =>
      match rstrip r with
      | EmptyString => if isspace c then EmptyString else String c EmptyString
      | r' => String c r'
      end
  end.

(** [s.strip()] *)
Definition strip (s : string) : string := rstrip (lstrip s).

(** [s.split(sep)] for a one-character separator: never empty. *)
Fixpoint split (sep : ascii) (s : string) : list string :=
  match s with
  | EmptyString => [EmptyString]
  | String c r =>
      if Ascii.eqb c sep then EmptyString :: split sep r
      else match split sep r with
           | [] => [String c EmptyString]
           | tok :: toks => String c tok :: toks
           end
  end.

(** [s.startswith(p)] *)
Definition startswith (p s : string) : bool := String.prefix p s.

(** [s.lower()] restricted to the ASCII letters, which is all that
    header names need. *)
Definition lower_char (c : ascii) : ascii :=
  let n := N_of_ascii c in
  if ((65 <=? n) && (n <=? 90))%N then ascii_of_N (n + 32) else c.

Fixpoint lower (s : string) : string :=
  match s with
  | EmptyString => EmptyString
  | String c r => String (lower_char c) (lower r)
  end.

(** Truthiness of an optional string: [None] and [""] are falsy. *)
Definition truthy (o : option string) : bool :=
  match o with
  | Some (String _ _) => true
  | _ => false
  end.

(** [str(n)] for an integer. *)
Definition str (n : Z) : string := pretty n.

Definition all_space (s : string) : Prop :=
  Forall (fun c => isspace c = true) (list_ascii_of_string s).

Definition no_char (sep : ascii) (s : string) : Prop :=
  Forall (fun c => c <> sep) (list_ascii_of_string s).

End PyStr.

(** ** Requests *)

(** The part of a Starlette [Request] the middleware reads.  [headers]
    is the raw ASGI header list (names in lower case); [client] is the
    host of [request.client], absent when the server gives no peer. *)
Record Request := {
  scope_type : string;
  path : string;
  headers : list (string * string);
  client : option string
}.

(** [request.headers.get(name)]: the first value stored under the
    lower-cased name. *)
Fixpoint headers_lookup (name : string) (hs : list (string * string)) : option string :=
  match hs with
  | [] => None
  | (k, v) :: hs' => if String.eqb k name then Some v else headers_lookup name hs'
  end.

Definition headers_get (name : string) (req : Request) : option string :=
  headers_lookup (PyStr.lower name) (headers req).

(** ** Identity resolver *)
Section IdentityResolver.

(** [hashlib.sha256(s.encode()).hexdigest()], a library function. *)
Variable sha256_hexdigest : string -> string.

(** [s[:n]] *)
Fixpoint take_prefix (n : nat) (s : string) : string :=
  match n, s with
  | S n', String c r => String c (take_prefix n' r)
  | _, _ => EmptyString
  end.

(** [authorization and authorization.startswith("Bearer ")] *)
Definition has_bearer (req : Request) : bool :=
  match headers_get "Authorization" req with
  | Some a => PyStr.truthy (Some a) && PyStr.startswith "Bearer " a
  | None => false
  end.

Definition get_client_id (req : Request) : string :=
  let authorization := headers_get "Authorization" req in
  if has_bearer req then
    let token_hash := take_prefix 16 (sha256_hexdigest (default "" authorization)) in
    "user:" +:+ token_hash
  else
    let client_ip := match client req with Some h => h | None => "unknown" end in
    let forwarded_for := headers_get "X-Forwarded-For" req in
    let client_ip :=
      if PyStr.truthy forwarded_for
      then PyStr.strip (hd "" (PyStr.split "," (default "" forwarded_for)))
      else client_ip in
    "ip:" +:+ client_ip.

End IdentityResolver.

(** ** Effects: a store threaded through calls that may raise *)

(** The exceptions a Redis call raises are subclasses of [Exception]. *)
Inductive exn := RedisError (msg : string).

Definition M (S A : Type) : Type := S -> S * (exn + A).

#[global] Instance M_ret {S} : MRet (M S) := fun A a s => (s, inr a).

#[global] Instance M_bind {S} : MBind (M S) := fun A B f m s =>
  match m s with
  | (s', inr a) => f a s'
  | (s', inl e) => (s', inl e)
  end.

Definition raise {S A} (e : exn) : M S A := fun s => (s, inl e).

(** The four commands the middleware sends through [redis_client]. *)
Class RedisClient (S : Type) := {
  zremrangebyscore : string -> Z -> Z -> M S Z;
  zcard : string -> M S Z;
  zadd : string -> string -> Z -> M S Z;
  expire : string -> Z -> M S bool
}.

(** [core.config.Settings], the two fields read here. *)
Record Settings := {
  RATE_LIMIT_REQUESTS : Z;
  RATE_LIMIT_PERIOD : Z
}.

Definition default_settings : Settings :=
  {| RATE_LIMIT_REQUESTS := 100; RATE_LIMIT_PERIOD := 60 |}.

(** ** Sliding window counter *)
Section Counter.
Context {S : Type} `{RedisClient S}.
Variable settings : Settings.

Definition rate_key (client_id : string) : string := "rate_limit:" +:+ client_id.

Definition window_start (now : Z) : Z := now - RATE_LIMIT_PERIOD settings.

(** "Remove old entries" *)
Definition prune_step (client_id : string) (now : Z) : M S Z :=
  zremrangebyscore (rate_key client_id) 0 (window_start now).

(** "Count current requests" *)
Definition count_step (client_id : string) : M S Z :=
  zcard (rate_key client_id).

(** "Add current request" *)
Definition record_step (client_id : string) (now : Z) : M S bool :=
  _ ← zadd (rate_key client_id) (PyStr.str now) now;
  expire (rate_key client_id) (RATE_LIMIT_PERIOD settings).

(** The body of the [try]; [now] is [int(time.time())]. *)
Definition check_rate_limit_body (client_id : string) (now : Z) : M S bool :=
  _ ← prune_step client_id now;
  request_count ← count_step client_id;
  if bool_decide (RATE_LIMIT_REQUESTS settings <= request_count) then mret false
  else _ ← record_step client_id now; mret true.

(** [except Exception]: the message is printed and [True] returned. *)
Definition check_rate_limit (client_id : string) (now : Z) (s : S) : S * bool :=
  match check_rate_limit_body client_id now s with
  | (s', inr b) => (s', b)
  | (s', inl _) => (s', true)
  end.

(** Some command of the call raises: the prune, the count, the
    insertion or the expiry. *)
Inductive store_error (client_id : string) (now : Z) (s : S) : Prop :=
| prune_raises s1 e :
    prune_step client_id now s = (s1, inl e) ->
    store_error client_id now s
| count_raises s1 removed s2 e :
    prune_step client_id now s = (s1, inr removed) ->
    count_step client_id s1 = (s2, inl e) ->
    store_error client_id now s
| zadd_raises s1 removed s2 request_count s3 e :
    prune_step client_id now s = (s1, inr removed) ->
    count_step client_id s1 = (s2, inr request_count) ->
    request_count < RATE_LIMIT_REQUESTS settings ->
    zadd (rate_key client_id) (PyStr.str now) now s2 = (s3, inl e) ->
    store_error client_id now s
| expire_raises s1 removed s2 request_count s3 added s4 e :
    prune_step client_id now s = (s1, inr removed) ->
    count_step client_id s1 = (s2, inr request_count) ->
    request_count < RATE_LIMIT_REQUESTS settings ->
    zadd (rate_key client_id) (PyStr.str now) now s2 = (s3, inr added) ->
    expire (rate_key client_id) (RATE_LIMIT_PERIOD settings) s3 = (s4, inl e) ->
    store_error client_id now s.

End Counter.

(** ** Admission gate *)

(** JSON values of a flat object, which is all the middleware sends. *)
Inductive json_value :=
| JStr (s : string)
| JInt (n : Z).

Definition json := list (string * json_value).

Definition dquote : ascii := "034"%char.
Definition backslash : ascii := "092"%char.

(** [json.dumps(content, separators=(",", ":"))]; of the string escapes
    only the two for the quote and the backslash are modelled. *)
Fixpoint escape (s : string) : string :=
  match s with
  | EmptyString => EmptyString
  | String c r =>
      if Ascii.eqb c dquote || Ascii.eqb c backslash
      then String backslash (String c (escape r))
      else String c (escape r)
  end.

Definition quote (s : string) : string :=
  String dquote (escape s) +:+ String dquote EmptyString.

Definition render_value (v : json_value) : string :=
  match v with
  | JStr s => quote s
  | JInt n => PyStr.str n
  end.

Fixpoint render_members (fs : json) : string :=
  match fs with
  | [] => ""
  | (k, v) :: fs' =>
      quote k +:+ ":" +:+ render_value v
      +:+ match fs' with [] => "" | _ => "," +:+ render_members fs' end
  end.

Definition render (j : json) : string := "{" +:+ render_members j +:+ "}".

(** A Starlette [JSONResponse] built without a [headers] argument: the
    raw headers are the two that [init_headers] derives from the body. *)
Record JSONResponse := {
  status_code : Z;
  content : json;
  raw_headers : list (string * string)
}.

Definition mkJSONResponse (status : Z) (c : json) : JSONResponse :=
  {| status_code := status;
     content := c;
     raw_headers :=
       [("content-length", PyStr.str (Z.of_nat (String.length (render c))));
        ("content-type", "application/json")] |}.

Definition HTTP_429_TOO_MANY_REQUESTS : Z := 429.

(** What the middleware does with a request: hand it to the wrapped
    application, or answer it itself. *)
Inductive Outcome :=
| Forwarded
| Responded (r : JSONResponse).

Definition exempt_paths : list string :=
  ["/health"; "/docs"; "/redoc"; "/openapi.json"].

Definition json_field (k : string) (j : json) : option json_value :=
  snd <$> List.find (fun kv => String.eqb (fst kv) k) j.

Section Gate.
Context {S : Type} `{RedisClient S}.
Variable sha256_hexdigest : string -> string.
Variable settings : Settings.

Definition rejection : JSONResponse :=
  mkJSONResponse HTTP_429_TOO_MANY_REQUESTS
    ([("error", JStr "Rate limit exceeded");
           ("message", JStr ("Maximum " +:+ PyStr.str (RATE_LIMIT_REQUESTS settings)
                             +:+ " requests per "
                             +:+ PyStr.str (RATE_LIMIT_PERIOD settings) +:+ " seconds"));
           ("retry_after", JInt (RATE_LIMIT_PERIOD settings))]).

Definition __call__ (req : Request) (now : Z) (s : S) : S * Outcome :=
  if negb (String.eqb (scope_type req) "http") then (s, Forwarded)
  else if bool_decide (path req ∈ exempt_paths) then (s, Forwarded)
  else
    let client_id := get_client_id sha256_hexdigest req in
    let '(s', allowed) := check_rate_limit settings client_id now s in
    if negb allowed then (s', Responded rejection)
    else (s', Forwarded).

End Gate.

(** ** The Redis server, as far as the middleware uses it

    Redis is an external server; its commands are modelled after their
    documented behaviour.  A database maps a key to a sorted set (member
    to score, members unique) and, for keys given one, a time to live in
    seconds.  A key whose sorted set becomes empty disappears with its
    time to live; the passing of a time to live is a step of the server
    (see [reachable]). *)
Module Redis.

Record db := {
  zsets : gmap string (gmap string Z);
  ttls : gmap string Z
}.

Definition empty : db := {| zsets := ∅; ttls := ∅ |}.

Definition zset_of (key : string) (r : db) : gmap string Z :=
  default ∅ (zsets r !! key).

Definition drop_key (key : string) (r : db) : db :=
  {| zsets := delete key (zsets r); ttls := delete key (ttls r) |}.

Definition put_zset (key : string) (zs : gmap string Z) (r : db) : db :=
  if decide (zs = ∅) then drop_key key r
  else {| zsets := <[key := zs]> (zsets r); ttls := ttls r |}.

(** Scores outside the closed interval [lo, hi] survive ZREMRANGEBYSCORE. *)
Definition outside (lo hi : Z) (entry : string * Z) : Prop :=
  ¬ (lo <= entry.2 <= hi).

#[global] Instance outside_dec lo hi entry : Decision (outside lo hi entry).
Proof. unfold outside. apply _. Defined.

Definition ZREMRANGEBYSCORE (key : string) (lo hi : Z) (r : db) : db * Z :=
  match zsets r !! key with
  | None => (r, 0)
  | Some zs =>
      let kept := filter (outside lo hi) zs in
      (put_zset key kept r, Z.of_nat (size zs) - Z.of_nat (size kept))
  end.

Definition ZCARD (key : string) (r : db) : db * Z :=
  (r, Z.of_nat (size (zset_of key r))).

Definition ZADD (key member : string) (score : Z) (r : db) : db * Z :=
  let zs := zset_of key r in
  ({| zsets := <[key := <[member := score]> zs]> (zsets r); ttls := ttls r |},
   match zs !! member with Some _ => 0 | None => 1 end).

(** A timeout that is not positive deletes the key at once. *)
Definition EXPIRE (key : string) (seconds : Z) (r : db) : db * bool :=
  match zsets r !! key with
  | None => (r, false)
  | Some _ =>
      if decide (seconds <= 0) then (drop_key key r, true)
      else ({| zsets := zsets r; ttls := <[key := seconds]> (ttls r) |}, true)
  end.

Definition ok {A} (f : db -> db * A) : M db A :=
  fun r => let '(r', a) := f r in (r', inr a).

(** A server that answers every command. *)
#[global] Instance client : RedisClient db := {|
  zremrangebyscore key lo hi := ok (ZREMRANGEBYSCORE key lo hi);
  zcard key := ok (ZCARD key);
  zadd key member score := ok (ZADD key member score);
  expire key seconds := ok (EXPIRE key seconds)
|}.

(** The timestamps stored for a key: the scores of its sorted set. *)
Definition seconds_of (zs : gmap string Z) : gset Z := map_img zs.

(** Every member is the decimal rendering of its score. *)
Definition well_keyed (r : db) : Prop :=
  forall key member score,
    zset_of key r !! member = Some score -> member = PyStr.str score.

End Redis.

(** ** Test doubles for the client *)

(** A client whose connection is lost after [budget] more commands. *)
Record Flaky (S : Type) := mkFlaky { behind : S; budget : nat }.
Arguments mkFlaky {S}.
Arguments behind {S}.
Arguments budget {S}.

Definition flaky_call {S A} (op : M S A) : M (Flaky S) A :=
  fun f =>
    match budget f with
    | O => raise (RedisError "Connection refused") f
    | Datatypes.S n => let '(s', r) := op (behind f) in (mkFlaky s' n, r)
    end.

#[global] Instance flaky_client {S} `{RedisClient S} : RedisClient (Flaky S) := {|
  zremrangebyscore key lo hi := flaky_call (zremrangebyscore key lo hi);
  zcard key := flaky_call (zcard key);
  zadd key member score := flaky_call (zadd key member score);
  expire key seconds := flaky_call (expire key seconds)
|}.

(** A client that counts the commands sent through it. *)
Record Counted (S : Type) := mkCounted { inner : S; call_count : nat }.
Arguments mkCounted {S}.
Arguments inner {S}.
Arguments call_count {S}.

Definition counted_call {S A} (op : M S A) : M (Counted S) A :=
  fun c => let '(s', r) := op (inner c) in (mkCounted s' (Datatypes.S (call_count c)), r).

#[global] Instance counted_client {S} `{RedisClient S} : RedisClient (Counted S) := {|
  zremrangebyscore key lo hi := counted_call (zremrangebyscore key lo hi);
  zcard key := counted_call (zcard key);
  zadd key member score := counted_call (zadd key member score);
  expire key seconds := counted_call (expire key seconds)
|}.

(** ** Histories *)

(** The databases the middleware can leave behind: starting empty,
    after any calls of [check_rate_limit], with the server free to
    expire a key that has a time to live. *)
Inductive reachable (settings : Settings) : Redis.db -> Prop :=
| reach_empty : reachable settings Redis.empty
| reach_call r client_id now :
    reachable settings r ->
    reachable settings (check_rate_limit settings client_id now r).1
| reach_expired r key :
    reachable settings r -> is_Some (Redis.ttls r !! key) ->
    reachable settings (Redis.drop_key key r).

(** Admission decisions of successive calls for one client. *)
Fixpoint decisions (settings : Settings) (client_id : string) (times : list Z)
    (r : Redis.db) : list bool :=
  match times with
  | [] => []
  | now :: times' =>
      let '(r', b) := check_rate_limit settings client_id now r in
      b :: decisions settings client_id times' r'
  end.

Definition cfg (requests period : Z) : Settings :=
  {| RATE_LIMIT_REQUESTS := requests; RATE_LIMIT_PERIOD := period |}.

(** The steps of a call on a server that answers. *)
Section StepsOnRedis.
Import Redis.
Variable settings : Settings.
Implicit Types (r : db) (client_id : string) (now : Z).

(** The database after the prune step of a call. *)
Definition pruned client_id now r : db :=
  (ZREMRANGEBYSCORE (rate_key client_id) 0 (window_start settings now) r).1.

(** The database after the record step that follows an admission. *)
Definition recorded client_id now r : db :=
  (EXPIRE (rate_key client_id) (RATE_LIMIT_PERIOD settings)
     (ZADD (rate_key client_id) (PyStr.str now) now (pruned client_id now r)).1).1.

Definition post_prune_count client_id now r : Z :=
  Z.of_nat (size (zset_of (rate_key client_id) (pruned client_id now r))).

End StepsOnRedis.

(** ** The address, following the specification's words

    "if a forwarded-for header is present, take the first
    comma-separated token, trim whitespace, use as address; else use the
    peer address", and "unknown" when there is none. *)
Definition spec_address (req : Request) : string :=
  match headers_get "X-Forwarded-For" req with
  | Some f => PyStr.strip (hd "" (PyStr.split "," f))
  | None => match client req with Some h => h | None => "unknown" end
  end.

(** ** Sample data *)

Definition alice : string := "ip:203.0.113.5".
Definition bob : string := "ip:198.51.100.7".

(** One admission of [alice] at second 1000, limit 2 per 60 seconds. *)
Definition one_admission : Redis.db :=
  (check_rate_limit (cfg 2 60) alice 1000 Redis.empty).1.

(** Admissions at seconds 1000 and 1001: the limit of 2 is reached. *)
Definition two_admissions : Redis.db :=
  (check_rate_limit (cfg 2 60) alice 1001 one_admission).1.

(** One admission at second 940, limit 100 per 60 seconds. *)
Definition entry_at_940 : Redis.db :=
  (check_rate_limit (cfg 100 60) alice 940 Redis.empty).1.

Definition bob_once : Redis.db :=
  (check_rate_limit (cfg 2 60) bob 1000 Redis.empty).1.

Definition no_hash (s : string) : string := s.

Definition get (p : string) (hs : list (string * string)) (peer : option string) : Request :=
  {| scope_type := "http"; path := p; headers := hs; client := peer |}.

(** A request of [alice] behind a proxy, one with an empty
    forwarded-for header, and a health check. *)
Definition proxied_request : Request :=
  get "/accounts" [("x-forwarded-for", "203.0.113.5, 10.0.0.1")] None.

Definition empty_forwarded_request : Request :=
  get "/accounts" [("x-forwarded-for", "")] (Some "198.51.100.7").

Definition health_request : Request := get "/health" [] (Some "198.51.100.7").

(** ** Tokens and trimming, as relations *)

(** [tok] is the first [sep]-separated token of [s]. *)
Definition first_token (sep : ascii) (s tok : string) : Prop :=
  PyStr.no_char sep tok
  /\ (s = tok \/ exists rest, s = tok +:+ String sep rest).

(** [t] neither starts nor ends with whitespace. *)
Definition clean_ends (t : string) : Prop :=
  (forall c r, t = String c r -> PyStr.isspace c = false)
  /\ (forall r c, t = r +:+ String c EmptyString -> PyStr.isspace c = false).

(** [t] is [s] without its surrounding whitespace. *)
Definition trimmed (s t : string) : Prop :=
  exists pre post,
    s = pre +:+ t +:+ post
    /\ PyStr.all_space pre /\ PyStr.all_space post /\ clean_ends t.

(** ** Logging middleware ([middleware/logging.py]) *)

(** The messages an ASGI application sends: the start of a response,
    with its status and, when the key is there, its header pairs; a
    body chunk; anything else by its type. *)
Inductive Message :=
| ResponseStart (status : Z) (hdrs : option (list (string * string)))
| ResponseBody (body : string)
| OtherMessage (type : string).

(** A Python [dict] with string keys, as its items in insertion order. *)
Module PyDict.

(** [d[k] = v]: the value is replaced where the key is, or the pair
    is added at the end. *)
Fixpoint setitem (k v : string) (d : list (string * string)) : list (string * string) :=
  match d with
  | [] => [(k, v)]
  | (k', v') :: d' =>
      if String.eqb k' k then (k', v) :: d' else (k', v') :: setitem k v d'
  end.

(** [dict(pairs)] *)
Definition of_pairs (pairs : list (string * string)) : list (string * string) :=
  fold_left (fun d kv => setitem kv.1 kv.2 d) pairs [].

End PyDict.

Module LoggingMiddleware.

(** [send_wrapper]; [process_time] is the text of
    [f"{process_time:.3f}"].  Returns the lines logged and the message
    passed on to [send]. *)
Definition send_wrapper (request_id process_time : string) (message : Message)
    : list string * Message :=
  match message with
  | ResponseStart status_code hdrs =>
      let line := "[" +:+ request_id +:+ "] Response: " +:+ PyStr.str status_code
                  +:+ " - Time: " +:+ process_time +:+ "s" in
      let headers := PyDict.of_pairs (default [] hdrs) in
      let headers := PyDict.setitem "x-request-id" request_id headers in
      let headers := PyDict.setitem "x-process-time" process_time headers in
      ([line], ResponseStart status_code (Some headers))
  | _ => ([], message)
  end.

(** The wrapper applied to the messages of the application in turn;
    [elapsed i] is the time text read when message [i] is sent. *)
Fixpoint send_each (request_id : string) (elapsed : nat -> string) (i : nat)
    (messages : list Message) : list string * list Message :=
  match messages with
  | [] => ([], [])
  | m :: ms =>
      let '(lines, m') := send_wrapper request_id (elapsed i) m in
      let '(lines', ms') := send_each request_id elapsed (Datatypes.S i) ms in
      (app lines lines', m' :: ms')
  end.

(** [__call__]: [method] is [request.method], [uuid_text] is
    [str(uuid.uuid4())], [app_messages] what the wrapped application
    sends.  Returns the log and the messages that reach [send]. *)
Definition __call__ (method : string) (req : Request) (uuid_text : string)
    (elapsed : nat -> string) (app_messages : list Message)
    : list string * list Message :=
  if negb (String.eqb (scope_type req) "http") then ([], app_messages)
  else
    let request_id := take_prefix 8 uuid_text in
    let line :=
      "[" +:+ request_id +:+ "] " +:+ method +:+ " " +:+ path req +:+ " - "
      +:+ "Client: " +:+ match client req with Some h => h | None => "unknown" end
      +:+ " - "
      +:+ "User-Agent: " +:+ default "unknown" (headers_get "user-agent" req) in
    let '(lines, sent) := send_each request_id elapsed 0 app_messages in
    (line :: lines, sent).

End LoggingMiddleware.

(** ** The middleware stack of [main.py]

    [add_middleware] puts the middleware added last outermost, so the
    logging middleware wraps the rate limiter, which wraps the rest of
    the application. *)

(** A Starlette response sends its start, with the raw headers, and
    then its body. *)
Definition respond (resp : JSONResponse) : list Message :=
  [ResponseStart (status_code resp) (Some (raw_headers resp));
   ResponseBody (render (content resp))].

Section Stack.
Context {S : Type} `{RedisClient S}.
Variable sha256_hexdigest : string -> string.
Variable settings : Settings.

(** The rate limiter in front of an application that would send
    [inner] for this request. *)
Definition rate_limited (inner : list Message) (req : Request) (now : Z) (s : S)
    : S * list Message :=
  let '(s', outcome) := __call__ sha256_hexdigest settings req now s in
  (s', match outcome with
       | Forwarded => inner
       | Responded resp => respond resp
       end).

Definition stack (inner : list Message) (method : string) (req : Request)
    (uuid_text : string) (elapsed : nat -> string) (now : Z) (s : S)
    : S * (list string * list Message) :=
  let '(s', messages) := rate_limited inner req now s in
  (s', LoggingMiddleware.__call__ method req uuid_text elapsed messages).

End Stack.

(** The last value given for a header name in a list of pairs. *)
Definition last_value (name : string) (pairs : list (string * string)) : option string :=
  headers_lookup name (rev pairs).

(** Sample data for the middleware stack. *)
Definition bearer_request : Request :=
  get "/accounts" [("authorization", "Bearer abc"); ("x-forwarded-for", "203.0.113.5")]
    (Some "198.51.100.7").

Definition cookie_headers : list (string * string) :=
  [("set-cookie", "a=1"); ("content-type", "text/html"); ("set-cookie", "b=2")].

Definition plain_headers : list (string * string) :=
  [("content-length", "2"); ("content-type", "text/plain")].

Definition uuid_sample : string := "1b4e28ba-2fa1-11d2-883f-0016d3cca427".

Definition ms_sample (i : nat) : string := "0.004".

(** ** Histories of one client *)

(** The database after successive calls for one client. *)
Fixpoint final_store (settings : Settings) (client_id : string) (times : list Z)
    (r : Redis.db) : Redis.db :=
  match times with
  | [] => r
  | now :: times' =>
      final_store settings client_id times' (check_rate_limit settings client_id now r).1
  end.

(** The seconds of the calls that were admitted. *)
Fixpoint admitted_times (settings : Settings) (client_id : string) (times : list Z)
    (r : Redis.db) : list Z :=
  match times with
  | [] => []
  | now :: times' =>
      let '(r', b) := check_rate_limit settings client_id now r in
      if b then now :: admitted_times settings client_id times' r'
      else admitted_times settings client_id times' r'
  end.

(** The second [t] is recorded for the client, as the code records it. *)
Definition holds (client_id : string) (r : Redis.db) (t : Z) : Prop :=
  Redis.zset_of (rate_key client_id) r !! PyStr.str t = Some t.

(** The distinct seconds later than [since] in a list of times. *)
Definition seconds_since (since : Z) (times : list Z) : gset Z :=
  list_to_set (filter (fun t => since < t) times).

Definition websocket_request : Request :=
  {| scope_type := "websocket"; path := "/accounts"; headers := []; client := None |}.

(** * Properties *)

(** ** The Redis commands on one key *)
Section RedisFacts.
Import Redis.
Implicit Types (r : db) (key member : string) (zs : gmap string Z).

Lemma zset_of_put_zset key zs r : zset_of key (put_zset key zs r) = zs.
Proof.
  unfold put_zset, zset_of, drop_key.
  destruct (decide (zs = ∅)) as [->|]; simpl.
  - by rewrite lookup_delete_eq.
  - by rewrite lookup_insert_eq.
Qed.

Lemma zsets_put_zset_ne key key' zs r :
  key <> key' -> zsets (put_zset key zs r) !! key' = zsets r !! key'.
Proof.
  intros Hne. unfold put_zset, drop_key.
  destruct (decide (zs = ∅)); simpl.
  - by rewrite lookup_delete_ne.
  - by rewrite lookup_insert_ne.
Qed.

Lemma ttls_put_zset_ne key key' zs r :
  key <> key' -> ttls (put_zset key zs r) !! key' = ttls r !! key'.
Proof.
  intros Hne. unfold put_zset, drop_key.
  destruct (decide (zs = ∅)); simpl; [|done].
  by rewrite lookup_delete_ne.
Qed.

Lemma zset_of_ZREMRANGEBYSCORE key lo hi r :
  zset_of key (ZREMRANGEBYSCORE key lo hi r).1
  = filter (outside lo hi) (zset_of key r).
Proof.
  unfold ZREMRANGEBYSCORE.
  destruct (zsets r !! key) as [zs|] eqn:Hk; simpl.
  - rewrite zset_of_put_zset. unfold zset_of. by rewrite Hk.
  - unfold zset_of. rewrite Hk. simpl. by rewrite map_filter_empty.
Qed.

Lemma zset_of_ZADD key member score r :
  zset_of key (ZADD key member score r).1 = <[member := score]> (zset_of key r).
Proof. unfold ZADD, zset_of at 1. simpl. by rewrite lookup_insert_eq. Qed.

Lemma zset_of_EXPIRE key seconds r :
  zset_of key (EXPIRE key seconds r).1
  = if decide (seconds <= 0) then ∅ else zset_of key r.
Proof.
  unfold EXPIRE.
  destruct (zsets r !! key) as [zs|] eqn:Hk; simpl.
  - destruct (decide (seconds <= 0)); simpl; unfold zset_of; simpl.
    + by rewrite lookup_delete_eq.
    + done.
  - unfold zset_of. rewrite Hk. simpl. by destruct (decide (seconds <= 0)).
Qed.

(** Commands on one key leave every other key as it was. *)
Lemma ZREMRANGEBYSCORE_frame key key' lo hi r :
  key <> key' ->
  zsets (ZREMRANGEBYSCORE key lo hi r).1 !! key' = zsets r !! key'
  /\ ttls (ZREMRANGEBYSCORE key lo hi r).1 !! key' = ttls r !! key'.
Proof.
  intros Hne. unfold ZREMRANGEBYSCORE.
  destruct (zsets r !! key); simpl; [|done].
  split; [by apply zsets_put_zset_ne | by apply ttls_put_zset_ne].
Qed.

Lemma ZADD_frame key key' member score r :
  key <> key' ->
  zsets (ZADD key member score r).1 !! key' = zsets r !! key'
  /\ ttls (ZADD key member score r).1 !! key' = ttls r !! key'.
Proof. intros Hne. unfold ZADD; simpl. by rewrite lookup_insert_ne. Qed.

Lemma EXPIRE_frame key key' seconds r :
  key <> key' ->
  zsets (EXPIRE key seconds r).1 !! key' = zsets r !! key'
  /\ ttls (EXPIRE key seconds r).1 !! key' = ttls r !! key'.
Proof.
  intros Hne. unfold EXPIRE, drop_key.
  destruct (zsets r !! key); simpl; [|done].
  destruct (decide (seconds <= 0)); simpl.
  - by rewrite !lookup_delete_ne.
  - by rewrite lookup_insert_ne.
Qed.

End RedisFacts.

(** ** The counter on a server that answers *)
Section CounterOnRedis.
Import Redis.
Variable settings : Settings.
Implicit Types (r : db) (client_id : string) (now : Z).

Lemma prune_step_redis client_id now r :
  (prune_step settings client_id now r).1 = pruned settings client_id now r.
Proof.
  unfold prune_step, pruned; simpl. unfold ok.
  by destruct (ZREMRANGEBYSCORE _ _ _ _).
Qed.

Lemma check_rate_limit_redis client_id now r :
  check_rate_limit settings client_id now r
  = if bool_decide (RATE_LIMIT_REQUESTS settings <= post_prune_count settings client_id now r)
    then (pruned settings client_id now r, false)
    else (recorded settings client_id now r, true).
Proof.
  unfold check_rate_limit, check_rate_limit_body, prune_step, count_step,
    record_step, post_prune_count, recorded, pruned.
  unfold mbind, M_bind, mret, M_ret; simpl. unfold ok.
  destruct (ZREMRANGEBYSCORE _ _ _ r) as [r1 n1]; simpl.
  case_bool_decide; simpl; [done|].
  by destruct (EXPIRE _ _ _) as [r3 b3].
Qed.

End CounterOnRedis.

(** ** Failure semantics, for any client *)
Section FailOpen.
Context {S : Type} `{RedisClient S}.
Variable settings : Settings.
Implicit Types (s : S) (client_id : string) (now : Z).

Ltac run_body :=
  unfold check_rate_limit, check_rate_limit_body, record_step;
  unfold mbind, M_bind, mret, M_ret.

Lemma body_raises_iff client_id now s :
  (exists s' e, check_rate_limit_body settings client_id now s = (s', inl e))
  <-> store_error settings client_id now s.
Proof.
  split.
  - run_body. intros (s' & e & Hrun).
    destruct (prune_step settings client_id now s) as [s1 [e1|removed]] eqn:Hp;
      [by eapply prune_raises|].
    destruct (count_step client_id s1) as [s2 [e2|n]] eqn:Hc;
      [by eapply count_raises|].
    case_bool_decide; [done|].
    destruct (zadd _ _ _ s2) as [s3 [e3|added]] eqn:Ha;
      [eapply zadd_raises; eauto; lia|].
    destruct (expire _ _ s3) as [s4 [e4|b]] eqn:He; [|done].
    eapply expire_raises; eauto; lia.
  - run_body. intros [s1 e Hp|s1 removed s2 e Hp Hc
                     |s1 removed s2 n s3 e Hp Hc Hn Ha
                     |s1 removed s2 n s3 added s4 e Hp Hc Hn Ha He];
      rewrite Hp; [by eauto|..]; rewrite Hc; [by eauto|..];
      (rewrite bool_decide_eq_false_2 by lia); rewrite Ha; [by eauto|];
      rewrite He; by eauto.
Qed.

(** A rejection is decided by the count alone, and ends the call
    there. *)
Lemma check_rate_limit_reject client_id now s s1 removed s2 request_count :
  prune_step settings client_id now s = (s1, inr removed) ->
  count_step client_id s1 = (s2, inr request_count) ->
  RATE_LIMIT_REQUESTS settings <= request_count ->
  check_rate_limit settings client_id now s = (s2, false).
Proof.
  intros Hp Hc Hn. run_body. rewrite Hp, Hc.
  by rewrite bool_decide_eq_true_2.
Qed.

(** C2. Whenever a store command of the call raises (prune, count,
    insertion or expiry), [check_rate_limit] returns [true]: the
    request is admitted and the caller sees no exception, only the
    store as the failed command left it. *)
Theorem check_rate_limit_fail_open client_id now s :
  store_error settings client_id now s ->
  exists s', check_rate_limit settings client_id now s = (s', true).
Proof.
  intros (s' & e & Hrun)%body_raises_iff.
  exists s'. unfold check_rate_limit. by rewrite Hrun.
Qed.

End FailOpen.

(** C2, on a client that loses its connection on the fourth command:
    the timestamp is recorded, the expiry raises, the call admits. *)
Lemma check_rate_limit_fail_open_witness :
  store_error (cfg 2 60) alice 1000 (mkFlaky Redis.empty 3)
  /\ exists s', check_rate_limit (cfg 2 60) alice 1000 (mkFlaky Redis.empty 3) = (s', true).
Proof.
  assert (store_error (cfg 2 60) alice 1000 (mkFlaky Redis.empty 3)) as Herr.
  { eapply expire_raises; [vm_compute; reflexivity..| |vm_compute; reflexivity| vm_compute; reflexivity].
    vm_compute. reflexivity. }
  split; [exact Herr|].
  exact (check_rate_limit_fail_open (cfg 2 60) alice 1000 _ Herr).
Defined.

(** ** Pruning, rejection and independence of keys *)
Section Window.
Import Redis.
Variable settings : Settings.
Implicit Types (r : db) (client_id : string) (now : Z).

Lemma rate_key_inj client_id client_id' :
  rate_key client_id = rate_key client_id' -> client_id = client_id'.
Proof. unfold rate_key. intros Heq. by simplify_eq/=. Qed.

Lemma str_inj (a b : Z) : PyStr.str a = PyStr.str b -> a = b.
Proof. unfold PyStr.str. apply (inj pretty). Qed.

Lemma zset_of_pruned client_id now r :
  zset_of (rate_key client_id) (pruned settings client_id now r)
  = filter (outside 0 (window_start settings now)) (zset_of (rate_key client_id) r).
Proof. unfold pruned. apply zset_of_ZREMRANGEBYSCORE. Qed.

Lemma zset_of_recorded client_id now r :
  zset_of (rate_key client_id) (recorded settings client_id now r)
  = if decide (RATE_LIMIT_PERIOD settings <= 0) then ∅
    else <[PyStr.str now := now]>
           (zset_of (rate_key client_id) (pruned settings client_id now r)).
Proof.
  unfold recorded. rewrite zset_of_EXPIRE.
  destruct (decide (RATE_LIMIT_PERIOD settings <= 0)); [done|].
  apply zset_of_ZADD.
Qed.

Lemma pruned_frame client_id now r key :
  rate_key client_id <> key ->
  zsets (pruned settings client_id now r) !! key = zsets r !! key
  /\ ttls (pruned settings client_id now r) !! key = ttls r !! key.
Proof. intros Hne. unfold pruned. by apply ZREMRANGEBYSCORE_frame. Qed.

Lemma recorded_frame client_id now r key :
  rate_key client_id <> key ->
  zsets (recorded settings client_id now r) !! key = zsets r !! key
  /\ ttls (recorded settings client_id now r) !! key = ttls r !! key.
Proof.
  intros Hne. unfold recorded.
  destruct (EXPIRE_frame (rate_key client_id) key (RATE_LIMIT_PERIOD settings)
              (ZADD (rate_key client_id) (PyStr.str now) now
                 (pruned settings client_id now r)).1 Hne) as [-> ->].
  destruct (ZADD_frame (rate_key client_id) key (PyStr.str now) now
              (pruned settings client_id now r) Hne) as [-> ->].
  by apply pruned_frame.
Qed.

Lemma ttls_pruned client_id now r :
  ttls (pruned settings client_id now r) !! rate_key client_id
    = ttls r !! rate_key client_id
  \/ ttls (pruned settings client_id now r) !! rate_key client_id = None.
Proof.
  unfold pruned, ZREMRANGEBYSCORE.
  destruct (zsets r !! rate_key client_id); simpl; [|by left].
  unfold put_zset, drop_key. case_decide; simpl.
  - right. apply lookup_delete_eq.
  - by left.
Qed.

(** The decision reads nothing but the sorted set of its own key. *)
Lemma decision_reads_own_key client_id now r r2 :
  zsets r2 !! rate_key client_id = zsets r !! rate_key client_id ->
  (check_rate_limit settings client_id now r2).2
  = (check_rate_limit settings client_id now r).2.
Proof.
  intros Hsame. rewrite !check_rate_limit_redis.
  assert (post_prune_count settings client_id now r2
          = post_prune_count settings client_id now r) as ->.
  { unfold post_prune_count. rewrite !zset_of_pruned.
    unfold zset_of. by rewrite Hsame. }
  by case_bool_decide.
Qed.

(** C3 (amended). The prune step of a call at [now] keeps exactly
    the entries of the key whose score lies outside the closed range
    from [0] to [windowStart = now - windowSeconds]: a timestamp [t]
    with [0 <= t <= windowStart] is removed, the boundary
    [t = windowStart] included, and every other entry stays with its
    score. *)
Theorem prune_step_removes_closed_range client_id now r member score :
  zset_of (rate_key client_id) (prune_step settings client_id now r).1 !! member
    = Some score
  <-> zset_of (rate_key client_id) r !! member = Some score
      /\ ~ (0 <= score <= window_start settings now).
Proof.
  rewrite prune_step_redis, zset_of_pruned, map_lookup_filter_Some.
  reflexivity.
Qed.

(** C4. With a positive window, a timestamp [t] recorded for a key
    (under the member [str t], at a time since the epoch) is gone
    after a call for that key at [now] exactly when
    [now >= t + windowSeconds]. *)
Theorem pruned_iff_window_elapsed client_id now t r :
  0 < RATE_LIMIT_PERIOD settings ->
  0 <= t ->
  zset_of (rate_key client_id) r !! PyStr.str t = Some t ->
  zset_of (rate_key client_id) (check_rate_limit settings client_id now r).1
    !! PyStr.str t = None
  <-> t + RATE_LIMIT_PERIOD settings <= now.
Proof.
  intros Hperiod Ht Hstored.
  assert (zset_of (rate_key client_id) (pruned settings client_id now r)
            !! PyStr.str t = None
          <-> t + RATE_LIMIT_PERIOD settings <= now) as Hprune.
  { rewrite zset_of_pruned, map_lookup_filter_None.
    unfold outside, window_start; simpl. split.
    - intros [Hnone|Hout]; [congruence|].
      specialize (Hout t Hstored). lia.
    - intros Hle. right. intros score Hscore.
      assert (score = t) as -> by congruence. lia. }
  rewrite check_rate_limit_redis. case_bool_decide; simpl; [done|].
  rewrite zset_of_recorded.
  destruct (decide (RATE_LIMIT_PERIOD settings <= 0)); [lia|].
  destruct (decide (PyStr.str now = PyStr.str t)) as [Heq|Hne].
  - apply str_inj in Heq as ->. rewrite lookup_insert_eq.
    split; [done|lia].
  - by rewrite lookup_insert_ne.
Qed.

(** C7. When the count after pruning has reached the limit, the call
    returns [false] and leaves the database as the prune step left it:
    the key's set holds no entry that was not there before, its time
    to live is not set anew, and the only commands sent are the prune
    and the count. *)
Theorem reject_records_nothing client_id now r :
  RATE_LIMIT_REQUESTS settings <= post_prune_count settings client_id now r ->
  check_rate_limit settings client_id now r = (pruned settings client_id now r, false)
  /\ (forall member score,
        zset_of (rate_key client_id) (check_rate_limit settings client_id now r).1
          !! member = Some score ->
        zset_of (rate_key client_id) r !! member = Some score)
  /\ (ttls (check_rate_limit settings client_id now r).1 !! rate_key client_id
        = ttls r !! rate_key client_id
      \/ ttls (check_rate_limit settings client_id now r).1 !! rate_key client_id
        = None)
  /\ check_rate_limit settings client_id now (mkCounted r 0)
     = (mkCounted (pruned settings client_id now r) 2, false).
Proof.
  intros Hfull.
  assert (check_rate_limit settings client_id now r
          = (pruned settings client_id now r, false)) as Hrun.
  { rewrite check_rate_limit_redis. by rewrite bool_decide_eq_true_2. }
  rewrite Hrun; simpl. split; [done|]. split; [|split].
  - intros member score. rewrite zset_of_pruned, map_lookup_filter_Some.
    by intros [? _].
  - apply ttls_pruned.
  - apply (check_rate_limit_reject settings client_id now (mkCounted r 0)
             (mkCounted (pruned settings client_id now r) 1)
             (ZREMRANGEBYSCORE (rate_key client_id) 0 (window_start settings now) r).2
             (mkCounted (pruned settings client_id now r) 2)
             (post_prune_count settings client_id now r)); [| |exact Hfull].
    + unfold prune_step; simpl. unfold counted_call, ok; simpl.
      unfold pruned.
      by destruct (ZREMRANGEBYSCORE _ _ _ r).
    + reflexivity.
Qed.

(** C10. A call for [k1] leaves the sorted set, the count and the
    time to live of any other key [k2] as they were, and its decision
    is the same in every database that differs only at [k2]. *)
Theorem keys_do_not_interfere k1 k2 now r :
  k1 <> k2 ->
  zsets (check_rate_limit settings k1 now r).1 !! rate_key k2 = zsets r !! rate_key k2
  /\ (ZCARD (rate_key k2) (check_rate_limit settings k1 now r).1).2
     = (ZCARD (rate_key k2) r).2
  /\ ttls (check_rate_limit settings k1 now r).1 !! rate_key k2 = ttls r !! rate_key k2
  /\ (forall r2,
        (forall key, key <> rate_key k2 ->
           zsets r2 !! key = zsets r !! key /\ ttls r2 !! key = ttls r !! key) ->
        (check_rate_limit settings k1 now r2).2
        = (check_rate_limit settings k1 now r).2).
Proof.
  intros Hne.
  assert (rate_key k1 <> rate_key k2) as Hkeys
    by (intros Heq; by apply rate_key_inj in Heq).
  assert (zsets (check_rate_limit settings k1 now r).1 !! rate_key k2
            = zsets r !! rate_key k2
          /\ ttls (check_rate_limit settings k1 now r).1 !! rate_key k2
            = ttls r !! rate_key k2) as [Hz Ht].
  { rewrite check_rate_limit_redis. case_bool_decide; simpl.
    - by apply pruned_frame.
    - by apply recorded_frame. }
  split; [done|]. split; [|split; [done|]].
  - unfold ZCARD, zset_of; simpl. by rewrite Hz.
  - intros r2 Hsame. apply decision_reads_own_key.
    by apply Hsame.
Qed.

End Window.


(** C3, the claim as written fails at the boundary: an admission
    recorded at second 940 is removed by the prune step of a call at
    second 1000 with a window of 60, although 940 is not below the
    window start 940. *)
Lemma prune_step_boundary_counterexample :
  Redis.zset_of (rate_key alice) entry_at_940 !! PyStr.str 940 = Some 940
  /\ ~ (940 < window_start (cfg 100 60) 1000)
  /\ Redis.zset_of (rate_key alice) (prune_step (cfg 100 60) alice 1000 entry_at_940).1
       !! PyStr.str 940 = None.
Proof.
  split; [vm_compute; reflexivity|].
  split; [unfold window_start; simpl; lia|].
  vm_compute; reflexivity.
Qed.

Lemma pruned_iff_window_elapsed_witness :
  0 < RATE_LIMIT_PERIOD (cfg 2 60)
  /\ 0 <= 1000
  /\ Redis.zset_of (rate_key alice) one_admission !! PyStr.str 1000 = Some 1000
  /\ (Redis.zset_of (rate_key alice)
        (check_rate_limit (cfg 2 60) alice 1060 one_admission).1 !! PyStr.str 1000 = None
      <-> 1000 + RATE_LIMIT_PERIOD (cfg 2 60) <= 1060).
Proof.
  assert (0 < RATE_LIMIT_PERIOD (cfg 2 60)) as Hperiod by (simpl; lia).
  assert (0 <= 1000) as Ht by lia.
  assert (Redis.zset_of (rate_key alice) one_admission !! PyStr.str 1000 = Some 1000)
    as Hstored by (vm_compute; reflexivity).
  repeat split; try assumption;
    apply (pruned_iff_window_elapsed (cfg 2 60) alice 1060 1000 one_admission
             Hperiod Ht Hstored).
Defined.

Lemma reject_records_nothing_witness :
  RATE_LIMIT_REQUESTS (cfg 2 60) <= post_prune_count (cfg 2 60) alice 1002 two_admissions
  /\ check_rate_limit (cfg 2 60) alice 1002 two_admissions
     = (pruned (cfg 2 60) alice 1002 two_admissions, false).
Proof.
  assert (RATE_LIMIT_REQUESTS (cfg 2 60)
          <= post_prune_count (cfg 2 60) alice 1002 two_admissions) as Hfull
    by (apply Z.leb_le; vm_compute; reflexivity).
  split; [exact Hfull|].
  exact (proj1 (reject_records_nothing (cfg 2 60) alice 1002 two_admissions Hfull)).
Defined.

Lemma keys_do_not_interfere_witness :
  alice <> bob
  /\ Redis.zsets (check_rate_limit (cfg 2 60) alice 1001 bob_once).1 !! rate_key bob
     = Redis.zsets bob_once !! rate_key bob.
Proof.
  assert (alice <> bob) as Hne by discriminate.
  split; [exact Hne|].
  exact (proj1 (keys_do_not_interfere (cfg 2 60) alice bob 1001 bob_once Hne)).
Defined.

(** ** Histories: what the stored sets look like *)
Section History.
Import Redis.
Variable settings : Settings.
Implicit Types (r : db) (client_id key : string) (now : Z).

Lemma zset_of_frame key r r' :
  zsets r' !! key = zsets r !! key -> zset_of key r' = zset_of key r.
Proof. unfold zset_of. by intros ->. Qed.

Lemma well_keyed_empty : well_keyed Redis.empty.
Proof. intros key member score. unfold zset_of; simpl. by rewrite lookup_empty. Qed.

Lemma well_keyed_pruned client_id now r :
  well_keyed r -> well_keyed (pruned settings client_id now r).
Proof.
  intros Hr key member score.
  destruct (decide (rate_key client_id = key)) as [<-|Hne].
  - rewrite zset_of_pruned, map_lookup_filter_Some. intros [Hin _]. eauto.
  - rewrite (zset_of_frame key r) by (by apply pruned_frame). apply Hr.
Qed.

Lemma well_keyed_recorded client_id now r :
  well_keyed r -> well_keyed (recorded settings client_id now r).
Proof.
  intros Hr key member score.
  destruct (decide (rate_key client_id = key)) as [<-|Hne].
  - rewrite zset_of_recorded. case_decide; [by rewrite lookup_empty|].
    destruct (decide (PyStr.str now = member)) as [<-|Hm].
    + rewrite lookup_insert_eq. congruence.
    + rewrite lookup_insert_ne by done. apply well_keyed_pruned, Hr.
  - rewrite (zset_of_frame key r) by (by apply recorded_frame). apply Hr.
Qed.

Lemma well_keyed_check_rate_limit client_id now r :
  well_keyed r -> well_keyed (check_rate_limit settings client_id now r).1.
Proof.
  intros Hr. rewrite check_rate_limit_redis. case_bool_decide; simpl.
  - by apply well_keyed_pruned.
  - by apply well_keyed_recorded.
Qed.

Lemma well_keyed_drop_key key r : well_keyed r -> well_keyed (drop_key key r).
Proof.
  intros Hr key' member score. unfold drop_key, zset_of; simpl.
  destruct (decide (key = key')) as [<-|Hne].
  - by rewrite lookup_delete_eq.
  - rewrite lookup_delete_ne by done. apply Hr.
Qed.

Lemma reachable_well_keyed r : reachable settings r -> well_keyed r.
Proof.
  induction 1 as [|r client_id now _ IH|r key _ IH _].
  - apply well_keyed_empty.
  - by apply well_keyed_check_rate_limit.
  - by apply well_keyed_drop_key.
Qed.

Lemma well_keyed_one_per_second r key m1 m2 score :
  well_keyed r ->
  zset_of key r !! m1 = Some score -> zset_of key r !! m2 = Some score -> m1 = m2.
Proof. intros Hr H1 H2. rewrite (Hr _ _ _ H1), (Hr _ _ _ H2). done. Qed.

(** A set with one member per score has as many entries as scores. *)
Lemma size_seconds_of (zs : gmap string Z) :
  (forall m1 m2 score, zs !! m1 = Some score -> zs !! m2 = Some score -> m1 = m2) ->
  size (seconds_of zs) = size zs.
Proof.
  unfold seconds_of.
  induction zs as [|member score zs Hfresh IH] using map_ind; intros Hinj.
  - by rewrite map_img_empty_L, size_empty, map_size_empty.
  - rewrite map_img_insert_notin_L by done.
    rewrite map_size_insert_None by done.
    rewrite size_union, size_singleton.
    + rewrite IH; [done|].
      intros m1 m2 sc H1 H2. apply (Hinj m1 m2 sc).
      * rewrite lookup_insert_ne; [done|]. intros <-. congruence.
      * rewrite lookup_insert_ne; [done|]. intros <-. congruence.
    + apply disjoint_singleton_l. intros [m Hm]%elem_of_map_img.
      assert (member = m) as <-.
      { apply (Hinj member m score).
        - apply lookup_insert_eq.
        - rewrite lookup_insert_ne; [done|]. intros <-. congruence. }
      congruence.
Qed.





End History.



Example three_calls_in_one_second :
  decisions (cfg 2 60) alice [1000; 1000; 1000] Redis.empty = [true; true; true].
Proof. vm_compute; reflexivity. Qed.

Example spec_scenario :
  decisions (cfg 2 60) alice [0; 1; 2; 61] Redis.empty = [true; true; false; true].
Proof. vm_compute; reflexivity. Qed.

Lemma first_admission :
  check_rate_limit (cfg 2 60) alice 1000 Redis.empty = (one_admission, true).
Proof. vm_compute; reflexivity. Qed.

Lemma one_admission_fixed :
  check_rate_limit (cfg 2 60) alice 1000 one_admission = (one_admission, true).
Proof. vm_compute; reflexivity. Qed.

Lemma decisions_fixed (n : nat) :
  decisions (cfg 2 60) alice (repeat 1000 n) one_admission = repeat true n.
Proof.
  induction n as [|n IH]; [done|].
  simpl repeat. unfold decisions; fold decisions.
  rewrite one_admission_fixed. by rewrite IH.
Qed.

(** C1, where the code departs from the claim: with a limit of 2
    admissions per 60 seconds, any number of calls for one key in the
    same second are all admitted, three of them for a start. *)
Theorem same_second_exceeds_limit (n : nat) :
  decisions (cfg 2 60) alice (repeat 1000 n) Redis.empty = repeat true n.
Proof.
  destruct n as [|n]; [done|].
  simpl repeat. unfold decisions; fold decisions.
  rewrite first_admission. by rewrite decisions_fixed.
Qed.

(** ** The admission gate *)
Section GateFacts.
Context {S : Type} `{RedisClient S}.
Variable sha256_hexdigest : string -> string.
Variable settings : Settings.

Lemma exempt_forwarded (req : Request) now (s : S) :
  path req ∈ exempt_paths ->
  __call__ sha256_hexdigest settings req now s = (s, Forwarded).
Proof.
  intros Hexempt. unfold __call__.
  destruct (negb (scope_type req =? "http")%string); [done|].
  by rewrite bool_decide_eq_true_2.
Qed.

(** C6 (amended). A request on the http scope with a path that is
    not exempt, whose rate-limit check returns [false], is answered by
    the middleware itself with status 429; the body carries the error
    classification, a message naming the configured limit and window,
    and [retry_after] equal to the window in seconds.  The response
    has the content-length and content-type headers and no other. *)
Theorem rejected_with_429 (req : Request) now (s : S) :
  scope_type req = "http" ->
  path req ∉ exempt_paths ->
  (check_rate_limit settings (get_client_id sha256_hexdigest req) now s).2 = false ->
  exists resp,
    __call__ sha256_hexdigest settings req now s
    = ((check_rate_limit settings (get_client_id sha256_hexdigest req) now s).1,
       Responded resp)
    /\ status_code resp = 429
    /\ json_field "error" (content resp) = Some (JStr "Rate limit exceeded")
    /\ json_field "message" (content resp)
       = Some (JStr ("Maximum " +:+ PyStr.str (RATE_LIMIT_REQUESTS settings)
                     +:+ " requests per " +:+ PyStr.str (RATE_LIMIT_PERIOD settings)
                     +:+ " seconds"))
    /\ json_field "retry_after" (content resp) = Some (JInt (RATE_LIMIT_PERIOD settings))
    /\ map fst (raw_headers resp) = ["content-length"; "content-type"].
Proof.
  intros Hhttp Hpath Hreject. exists (rejection settings).
  split; [|by repeat split].
  unfold __call__. rewrite Hhttp; simpl.
  rewrite bool_decide_eq_false_2 by done.
  destruct (check_rate_limit _ _ _ _) as [s' b]; simpl in *.
  by rewrite Hreject.
Qed.

End GateFacts.

(** C9. A request whose path is in the exempt set is handed to the
    application whatever its headers and peer are; the store is left as
    it was, and a client that counts its commands counts none. *)
Theorem exempt_path_bypasses {S : Type} `{RedisClient S}
    (sha256_hexdigest : string -> string) (settings : Settings)
    (req : Request) (now : Z) (s : S) (n : nat) :
  path req ∈ exempt_paths ->
  __call__ sha256_hexdigest settings req now s = (s, Forwarded)
  /\ __call__ sha256_hexdigest settings req now (mkCounted s n)
     = (mkCounted s n, Forwarded).
Proof. intros Hexempt. split; by apply exempt_forwarded. Qed.

Lemma exempt_path_bypasses_witness :
  path health_request ∈ exempt_paths
  /\ __call__ no_hash (cfg 2 60) health_request 1002 (mkCounted two_admissions 0)
     = (mkCounted two_admissions 0, Forwarded).
Proof.
  assert (path health_request ∈ exempt_paths) as Hexempt
    by (apply (bool_decide_eq_true_1 _); vm_compute; reflexivity).
  split; [exact Hexempt|].
  exact (proj1 (exempt_path_bypasses no_hash (cfg 2 60) health_request 1002
                  (mkCounted two_admissions 0) 0 Hexempt)).
Defined.

Lemma rejected_with_429_witness :
  scope_type proxied_request = "http"
  /\ (path proxied_request ∉ exempt_paths)
  /\ (check_rate_limit (cfg 2 60) (get_client_id no_hash proxied_request) 1002
        two_admissions).2 = false
  /\ exists resp,
       __call__ no_hash (cfg 2 60) proxied_request 1002 two_admissions
       = ((check_rate_limit (cfg 2 60) (get_client_id no_hash proxied_request) 1002
             two_admissions).1, Responded resp)
       /\ status_code resp = 429.
Proof.
  assert (scope_type proxied_request = "http") as Hhttp by reflexivity.
  assert (path proxied_request ∉ exempt_paths) as Hpath
    by (apply (bool_decide_eq_false_1 _); vm_compute; reflexivity).
  assert ((check_rate_limit (cfg 2 60) (get_client_id no_hash proxied_request) 1002
             two_admissions).2 = false) as Hreject by (vm_compute; reflexivity).
  split; [exact Hhttp|]. split; [exact Hpath|]. split; [exact Hreject|].
  destruct (rejected_with_429 no_hash (cfg 2 60) proxied_request 1002 two_admissions
              Hhttp Hpath Hreject) as (resp & Hcall & Hstatus & _).
  exists resp. split; [exact Hcall|exact Hstatus].
Defined.

(** C6, the claim as written: the rejection of a request over the
    limit carries no Retry-After header. *)
Lemma rejection_without_retry_after_header :
  (__call__ no_hash (cfg 2 60) proxied_request 1002 two_admissions).2
  = Responded (rejection (cfg 2 60))
  /\ headers_lookup "retry-after" (raw_headers (rejection (cfg 2 60))) = None.
Proof. split; vm_compute; reflexivity. Qed.

(** ** The identity resolver *)
Section Strings.
Import PyStr.

Lemma append_cons (c : ascii) (a b : string) : String c a +:+ b = String c (a +:+ b).
Proof. reflexivity. Qed.

Lemma append_nil (b : string) : "" +:+ b = b.
Proof. reflexivity. Qed.

Lemma append_snoc_nonempty (r : string) (c : ascii) : r +:+ String c "" <> "".
Proof. by destruct r. Qed.

Lemma all_space_nil : all_space "".
Proof. constructor. Qed.

Lemma all_space_cons c s : isspace c = true -> all_space s -> all_space (String c s).
Proof. intros Hc Hs. by constructor. Qed.

Lemma split_hd_first_token sep s : first_token sep s (hd "" (split sep s)).
Proof.
  induction s as [|c s [Hno Hs]]; simpl.
  - split; [constructor|by left].
  - destruct (Ascii.eqb c sep) eqn:Hc; simpl.
    + apply Ascii.eqb_eq in Hc as ->.
      split; [constructor|]. right. by exists s.
    + apply Ascii.eqb_neq in Hc.
      destruct (split sep s) as [|tok toks]; simpl in *.
      * split; [by repeat constructor|].
        destruct Hs as [->|[rest ->]]; [by left|right; by exists rest].
      * split; [by constructor|].
        destruct Hs as [->|[rest ->]]; [by left|right; by exists rest].
Qed.

Lemma lstrip_spec s :
  exists pre, s = pre +:+ lstrip s /\ all_space pre
              /\ forall c r, lstrip s = String c r -> isspace c = false.
Proof.
  induction s as [|a s (pre & Hs & Hpre & Hhead)]; simpl.
  - exists "". split; [done|]. split; [apply all_space_nil|done].
  - destruct (isspace a) eqn:Ha.
    + exists (String a pre).
      split; [rewrite append_cons; by f_equal|].
      split; [by apply all_space_cons|done].
    + exists "". split; [done|]. split; [apply all_space_nil|].
      intros c r [= <- _]. done.
Qed.

Lemma rstrip_spec s :
  exists post, s = rstrip s +:+ post /\ all_space post
               /\ forall r c, rstrip s = r +:+ String c "" -> isspace c = false.
Proof.
  induction s as [|a s (post & Hs & Hpost & Hlast)]; simpl.
  - exists "". split; [done|]. split; [apply all_space_nil|].
    intros r c Heq. symmetry in Heq. by apply append_snoc_nonempty in Heq.
  - destruct (rstrip s) as [|b t] eqn:Hr.
    + rewrite append_nil in Hs. subst post. destruct (isspace a) eqn:Ha.
      * exists (String a s). split; [done|]. split; [by apply all_space_cons|].
        intros r c Heq. symmetry in Heq. by apply append_snoc_nonempty in Heq.
      * exists s. split; [done|]. split; [done|].
        intros [|a' r] c; rewrite ?append_nil, ?append_cons.
        -- by intros [= <-].
        -- intros [= _ Heq]. symmetry in Heq. by apply append_snoc_nonempty in Heq.
    + exists post. split; [rewrite append_cons; by f_equal|]. split; [done|].
      intros [|a' r] c; rewrite ?append_nil, ?append_cons.
      * by intros [= _ ?].
      * intros [= _ Heq]. by apply (Hlast r c).
Qed.

Lemma rstrip_head s :
  (forall c r, s = String c r -> isspace c = false) ->
  forall c r, rstrip s = String c r -> isspace c = false.
Proof.
  intros Hhead c r. destruct s as [|a s]; simpl; [done|].
  specialize (Hhead a s eq_refl).
  destruct (rstrip s); [|by intros [= <- _]].
  rewrite Hhead. by intros [= <- _].
Qed.

Lemma append_assoc (a b c : string) : (a +:+ b) +:+ c = a +:+ b +:+ c.
Proof.
  induction a as [|x a IH]; [done|].
  by rewrite !append_cons, IH.
Qed.

Lemma strip_trimmed s : trimmed s (strip s).
Proof.
  destruct (lstrip_spec s) as (pre & Hs & Hpre & Hhead).
  destruct (rstrip_spec (lstrip s)) as (post & Hl & Hpost & Hlast).
  exists pre, post. unfold strip.
  split; [by rewrite <- Hl|]. split; [done|]. split; [done|].
  split; [by apply rstrip_head|done].
Qed.

End Strings.

Section Resolver.
Variable sha256_hexdigest : string -> string.

(** C8 (amended). A request without a bearer credential gets the key
    ["ip:" + address].  When the forwarded-for header is present and
    not empty, the address is its first comma-separated token without
    the surrounding whitespace; otherwise (header absent, or present
    with an empty value) it is the peer address, or ["unknown"] when
    there is no peer.  Forwarded-for ["203.0.113.5, 10.0.0.1"] gives
    the address ["203.0.113.5"]. *)
Theorem get_client_id_without_bearer (req : Request) :
  has_bearer req = false ->
  (exists address,
     get_client_id sha256_hexdigest req = "ip:" +:+ address
     /\ match headers_get "X-Forwarded-For" req with
        | Some (String c f) =>
            address = PyStr.strip (hd "" (PyStr.split "," (String c f)))
            /\ exists tok, first_token "," (String c f) tok /\ trimmed tok address
        | _ => address = match client req with Some h => h | None => "unknown" end
        end)
  /\ (headers_get "X-Forwarded-For" req = Some "203.0.113.5, 10.0.0.1" ->
      get_client_id sha256_hexdigest req = "ip:203.0.113.5").
Proof.
  intros Hbearer. unfold get_client_id. rewrite Hbearer. split.
  - destruct (headers_get "X-Forwarded-For" req) as [[|c f]|] eqn:Hf; simpl.
    + by eexists.
    + eexists. split; [done|]. split; [done|].
      exists (hd "" (PyStr.split "," (String c f))).
      split; [apply split_hd_first_token|apply strip_trimmed].
    + by eexists.
  - by intros ->.
Qed.

End Resolver.

Lemma get_client_id_without_bearer_witness :
  has_bearer proxied_request = false
  /\ get_client_id no_hash proxied_request = "ip:203.0.113.5".
Proof.
  assert (has_bearer proxied_request = false) as Hbearer by reflexivity.
  split; [exact Hbearer|].
  exact (proj2 (get_client_id_without_bearer no_hash proxied_request Hbearer) eq_refl).
Defined.

(** C8, the claim as written: a forwarded-for header that is present
    with an empty value does not give the address; the peer address is
    used, where the first token of the header, trimmed, is empty. *)
Lemma empty_forwarded_for_counterexample :
  has_bearer empty_forwarded_request = false
  /\ headers_get "X-Forwarded-For" empty_forwarded_request = Some ""
  /\ get_client_id no_hash empty_forwarded_request = "ip:198.51.100.7"
  /\ "ip:" +:+ spec_address empty_forwarded_request = "ip:"
  /\ get_client_id no_hash empty_forwarded_request
     <> "ip:" +:+ spec_address empty_forwarded_request.
Proof. repeat split; try reflexivity. discriminate. Qed.

(** * Further properties of the counter *)
Section CounterBounds.
Import Redis.
Variable settings : Settings.
Implicit Types (r : db) (client_id key : string) (now : Z).

Lemma size_pruned_le client_id now r :
  (size (zset_of (rate_key client_id) (pruned settings client_id now r))
   <= size (zset_of (rate_key client_id) r))%nat.
Proof. rewrite zset_of_pruned. apply map_subseteq_size, map_filter_subseteq. Qed.

Lemma size_insert_le (zs : gmap string Z) member score :
  (size (<[member := score]> zs) <= Datatypes.S (size zs))%nat.
Proof. rewrite map_size_insert. destruct (zs !! member); simpl; lia. Qed.

Lemma pruned_empty_of_old client_id now t r :
  (forall member score,
      zset_of (rate_key client_id) r !! member = Some score -> 0 <= score <= t) ->
  t + RATE_LIMIT_PERIOD settings <= now ->
  zset_of (rate_key client_id) (pruned settings client_id now r) = ∅.
Proof.
  intros Hold Hquiet. rewrite zset_of_pruned. apply map_empty. intros member.
  apply map_lookup_filter_None. right. intros score Hin Hout.
  apply Hout. specialize (Hold member score Hin).
  unfold window_start; simpl. lia.
Qed.

Lemma bound_step client_id now r key :
  Z.of_nat (size (zset_of key r)) <= Z.max 0 (RATE_LIMIT_REQUESTS settings) ->
  Z.of_nat (size (zset_of key (check_rate_limit settings client_id now r).1))
  <= Z.max 0 (RATE_LIMIT_REQUESTS settings).
Proof.
  intros Hr. rewrite check_rate_limit_redis.
  destruct (decide (rate_key client_id = key)) as [<-|Hne].
  - case_bool_decide as Hfull; simpl.
    + pose proof (size_pruned_le client_id now r). lia.
    + rewrite zset_of_recorded. case_decide.
      * rewrite map_size_empty. lia.
      * unfold post_prune_count in Hfull.
        pose proof (size_insert_le
          (zset_of (rate_key client_id) (pruned settings client_id now r))
          (PyStr.str now) now). lia.
  - case_bool_decide; simpl.
    + by rewrite (zset_of_frame key r) by (by apply pruned_frame).
    + by rewrite (zset_of_frame key r) by (by apply recorded_frame).
Qed.

Lemma reachable_size_bound r key :
  reachable settings r ->
  Z.of_nat (size (zset_of key r)) <= Z.max 0 (RATE_LIMIT_REQUESTS settings).
Proof.
  induction 1 as [|r client_id now _ IH|r key' _ IH _].
  - unfold zset_of; simpl. rewrite lookup_empty; simpl. rewrite map_size_empty. lia.
  - by apply bound_step.
  - unfold drop_key, zset_of; simpl.
    destruct (decide (key' = key)) as [->|Hne].
    + rewrite lookup_delete_eq; simpl. rewrite map_size_empty. lia.
    + by rewrite lookup_delete_ne.
Qed.

(** X1. In every database the middleware can leave behind, no key
    holds more entries than the configured limit (none at all when the
    limit is not positive). *)
Theorem stored_entries_bounded r key :
  reachable settings r ->
  Z.of_nat (size (zset_of key r)) <= Z.max 0 (RATE_LIMIT_REQUESTS settings).
Proof. apply reachable_size_bound. Qed.

(** X2. If the timestamps stored for a key are between the epoch and
    the current second, then after a call for that key at [now] all of
    them lie in the window: later than [now - windowSeconds] and not
    later than [now]. *)
Theorem stored_within_window client_id now r :
  (forall member score,
      zset_of (rate_key client_id) r !! member = Some score -> 0 <= score <= now) ->
  forall member score,
    zset_of (rate_key client_id) (check_rate_limit settings client_id now r).1
      !! member = Some score ->
    now - RATE_LIMIT_PERIOD settings < score <= now.
Proof.
  intros Hpast member score.
  assert (forall m sc,
            zset_of (rate_key client_id) (pruned settings client_id now r) !! m = Some sc ->
            now - RATE_LIMIT_PERIOD settings < sc <= now) as Hpruned.
  { intros m sc. rewrite zset_of_pruned, map_lookup_filter_Some.
    unfold outside, window_start; simpl. intros [Hin Hout].
    specialize (Hpast m sc Hin). lia. }
  rewrite check_rate_limit_redis. case_bool_decide; simpl; [apply Hpruned|].
  rewrite zset_of_recorded. case_decide; [by rewrite lookup_empty|].
  destruct (decide (PyStr.str now = member)) as [<-|Hm].
  - rewrite lookup_insert_eq. intros [= <-]. lia.
  - rewrite lookup_insert_ne by done. apply Hpruned.
Qed.

(** X3. With a limit of at least one, a client whose stored timestamps
    are all at least a window old is admitted, however many there
    are. *)
Theorem admitted_after_quiet_window client_id now t r :
  1 <= RATE_LIMIT_REQUESTS settings ->
  (forall member score,
      zset_of (rate_key client_id) r !! member = Some score -> 0 <= score <= t) ->
  t + RATE_LIMIT_PERIOD settings <= now ->
  (check_rate_limit settings client_id now r).2 = true.
Proof.
  intros Hlimit Hold Hquiet. rewrite check_rate_limit_redis.
  unfold post_prune_count.
  rewrite (pruned_empty_of_old client_id now t r Hold Hquiet), map_size_empty.
  by rewrite bool_decide_eq_false_2 by lia.
Qed.

(** X4. With a positive window, a call that finds fewer entries than
    the limit after pruning returns [true]; the key's set is then the
    pruned set with [now] stored under [str now], and the key's time to
    live is the window. *)
Theorem admit_records_and_refreshes client_id now r :
  0 < RATE_LIMIT_PERIOD settings ->
  post_prune_count settings client_id now r < RATE_LIMIT_REQUESTS settings ->
  (check_rate_limit settings client_id now r).2 = true
  /\ zset_of (rate_key client_id) (check_rate_limit settings client_id now r).1
     = <[PyStr.str now := now]>
         (filter (outside 0 (window_start settings now)) (zset_of (rate_key client_id) r))
  /\ ttls (check_rate_limit settings client_id now r).1 !! rate_key client_id
     = Some (RATE_LIMIT_PERIOD settings).
Proof.
  intros Hperiod Hroom. rewrite check_rate_limit_redis.
  rewrite bool_decide_eq_false_2 by lia. simpl. split; [done|]. split.
  - rewrite zset_of_recorded. case_decide; [lia|]. by rewrite zset_of_pruned.
  - unfold recorded, EXPIRE, ZADD; simpl. rewrite lookup_insert_eq.
    case_decide; [lia|]. simpl. by rewrite lookup_insert_eq.
Qed.

(** X5. The first call for a key the server does not hold is admitted
    exactly when the limit is at least one. *)
Theorem fresh_key_admitted_iff client_id now r :
  zsets r !! rate_key client_id = None ->
  (check_rate_limit settings client_id now r).2 = true
  <-> 1 <= RATE_LIMIT_REQUESTS settings.
Proof.
  intros Hfresh. rewrite check_rate_limit_redis.
  assert (post_prune_count settings client_id now r = 0) as ->.
  { unfold post_prune_count. rewrite zset_of_pruned. unfold zset_of.
    rewrite Hfresh; simpl. by rewrite map_filter_empty, map_size_empty. }
  case_bool_decide; simpl; split; intros; try done; lia.
Qed.

(** X7. When the connection is lost between the insertion and the
    expiry, the call still returns [true], the timestamp stays recorded
    and the key's time to live is what it was after pruning: the call
    sets none. *)
Theorem expire_failure_leaves_record client_id now r :
  post_prune_count settings client_id now r < RATE_LIMIT_REQUESTS settings ->
  (check_rate_limit settings client_id now (mkFlaky r 3)).2 = true
  /\ zset_of (rate_key client_id)
       (behind (check_rate_limit settings client_id now (mkFlaky r 3)).1)
       !! PyStr.str now = Some now
  /\ ttls (behind (check_rate_limit settings client_id now (mkFlaky r 3)).1)
       !! rate_key client_id
     = ttls (pruned settings client_id now r) !! rate_key client_id.
Proof.
  intros Hroom.
  assert (check_rate_limit settings client_id now (mkFlaky r 3)
          = (mkFlaky (ZADD (rate_key client_id) (PyStr.str now) now
                        (pruned settings client_id now r)).1 0, true)) as ->.
  { unfold check_rate_limit, check_rate_limit_body, prune_step, count_step, record_step.
    unfold mbind, M_bind, mret, M_ret; simpl.
    unfold flaky_call, ok, pruned, post_prune_count, pruned in *; simpl.
    destruct (ZREMRANGEBYSCORE _ _ _ r) as [r1 n1]; simpl in *.
    by rewrite bool_decide_eq_false_2 by lia. }
  simpl. split; [done|]. split; [|done].
  change (zset_of (rate_key client_id)
            (ZADD (rate_key client_id) (PyStr.str now) now
               (pruned settings client_id now r)).1 !! PyStr.str now = Some now).
  rewrite zset_of_ZADD. apply lookup_insert_eq.
Qed.

End CounterBounds.

(** * Further properties of the admission gate *)
Section GateMore.
Context {S : Type} `{RedisClient S}.
Variable sha256_hexdigest : string -> string.
Variable settings : Settings.

(** X6. When a store command of the check raises, the gate hands the
    request to the application: a store that is down never causes a
    rejection. *)
Theorem gate_forwards_on_store_error (req : Request) now (s : S) :
  store_error settings (get_client_id sha256_hexdigest req) now s ->
  (__call__ sha256_hexdigest settings req now s).2 = Forwarded.
Proof.
  intros (s' & e & Hrun)%body_raises_iff. unfold __call__.
  destruct (negb (scope_type req =? "http")%string); [done|].
  case_bool_decide; [done|].
  unfold check_rate_limit. by rewrite Hrun.
Qed.

(** X8. The only response the gate produces itself is the 429
    rejection, and only for a request on the http scope, off the exempt
    paths, whose check returned [false]. *)
Theorem gate_responds_only_429 (req : Request) now (s : S) resp :
  (__call__ sha256_hexdigest settings req now s).2 = Responded resp ->
  resp = rejection settings
  /\ status_code resp = 429
  /\ scope_type req = "http"
  /\ (path req ∉ exempt_paths)
  /\ (check_rate_limit settings (get_client_id sha256_hexdigest req) now s).2 = false.
Proof.
  unfold __call__.
  destruct (scope_type req =? "http")%string eqn:Hscope; simpl; [|done].
  apply String.eqb_eq in Hscope.
  case_bool_decide; [done|].
  destruct (check_rate_limit _ _ _ _) as [s' [|]]; simpl; [done|].
  by intros [= <-].
Qed.

End GateMore.

(** * Further properties of the identity resolver *)
Section ResolverMore.
Import PyStr.
Variable sha256_hexdigest : string -> string.

Lemma no_char_cons sep c s :
  no_char sep (String c s) <-> c <> sep /\ no_char sep s.
Proof. unfold no_char; simpl. apply (Forall_cons (fun x => x <> sep)). Qed.

Lemma all_space_cons_iff c s :
  all_space (String c s) <-> isspace c = true /\ all_space s.
Proof. unfold all_space; simpl. apply (Forall_cons (fun x => isspace x = true)). Qed.

Lemma split_hd_whole sep tok : no_char sep tok -> hd "" (split sep tok) = tok.
Proof.
  induction tok as [|c tok IH]; [done|].
  intros [Hc Htok]%no_char_cons. simpl.
  apply Ascii.eqb_neq in Hc. rewrite Hc.
  specialize (IH Htok). destruct (split sep tok); simpl in *; by subst.
Qed.

Lemma split_hd_before sep tok rest :
  no_char sep tok -> hd "" (split sep (tok +:+ String sep rest)) = tok.
Proof.
  induction tok as [|c tok IH].
  - intros _. rewrite append_nil. simpl. by rewrite Ascii.eqb_refl.
  - intros [Hc Htok]%no_char_cons. rewrite append_cons. simpl.
    apply Ascii.eqb_neq in Hc. rewrite Hc.
    specialize (IH Htok). destruct (split sep _); simpl in *; by subst.
Qed.

Lemma split_hd_unique sep s tok : first_token sep s tok -> hd "" (split sep s) = tok.
Proof.
  intros [Hno [->|[rest ->]]]; [by apply split_hd_whole|by apply split_hd_before].
Qed.

Lemma lstrip_all_space s : all_space s -> lstrip s = "".
Proof.
  induction s as [|c s IH]; [done|].
  intros [Hc Hs]%all_space_cons_iff. simpl. rewrite Hc. by apply IH.
Qed.

Lemma lstrip_app_space pre s : all_space pre -> lstrip (pre +:+ s) = lstrip s.
Proof.
  induction pre as [|c pre IH]; [done|].
  intros [Hc Hpre]%all_space_cons_iff. rewrite append_cons. simpl.
  rewrite Hc. by apply IH.
Qed.

Lemma rstrip_all_space s : all_space s -> rstrip s = "".
Proof.
  induction s as [|c s IH]; [done|].
  intros [Hc Hs]%all_space_cons_iff. simpl. rewrite (IH Hs). by rewrite Hc.
Qed.

Lemma rstrip_app_space t post : all_space post -> rstrip (t +:+ post) = rstrip t.
Proof.
  intros Hpost. induction t as [|c t IH].
  - rewrite append_nil. by apply rstrip_all_space.
  - rewrite append_cons. simpl. by rewrite IH.
Qed.

Lemma rstrip_clean t :
  (forall r c, t = r +:+ String c "" -> isspace c = false) -> rstrip t = t.
Proof.
  induction t as [|a t IH]; [done|].
  intros Hlast. simpl. rewrite IH.
  - destruct t as [|b t]; [|done].
    by rewrite (Hlast "" a eq_refl).
  - intros r c ->. by apply (Hlast (String a r) c).
Qed.

Lemma strip_unique s t : trimmed s t -> strip s = t.
Proof.
  intros (pre & post & -> & Hpre & Hpost & Hhead & Hlast). unfold strip.
  rewrite lstrip_app_space by done.
  destruct t as [|c t].
  - rewrite append_nil, lstrip_all_space by done. done.
  - rewrite append_cons. simpl. rewrite (Hhead c t eq_refl).
    rewrite <- append_cons, rstrip_app_space by done.
    by apply rstrip_clean.
Qed.

(** X9. A request with a bearer credential gets the key ["user:"]
    followed by the first 16 characters of the digest of the whole
    Authorization value, whatever its forwarded-for header and peer
    are; and no request without a bearer credential gets the same
    key. *)
Theorem bearer_key (req : Request) :
  has_bearer req = true ->
  exists a,
    headers_get "Authorization" req = Some a
    /\ startswith "Bearer " a = true
    /\ get_client_id sha256_hexdigest req
       = "user:" +:+ take_prefix 16 (sha256_hexdigest a)
    /\ forall req',
         has_bearer req' = false ->
         get_client_id sha256_hexdigest req' <> get_client_id sha256_hexdigest req.
Proof.
  intros Hbearer. unfold get_client_id. rewrite Hbearer.
  unfold has_bearer in Hbearer.
  destruct (headers_get "Authorization" req) as [a|] eqn:Ha; [|done].
  apply andb_true_iff in Hbearer as [_ Hprefix].
  exists a. split; [done|]. split; [done|]. split; [done|].
  intros req' ->. rewrite !append_cons. discriminate.
Qed.

(** X10. For a request without a bearer credential, a forwarded-for
    header that is not empty decides the key alone: if [tok] is its
    first comma-separated token and [address] is [tok] without its
    surrounding whitespace, the key is ["ip:" + address], whatever the
    peer address is. *)
Theorem forwarded_for_decides_key (req : Request) f tok address :
  has_bearer req = false ->
  headers_get "X-Forwarded-For" req = Some f ->
  f <> "" ->
  first_token "," f tok ->
  trimmed tok address ->
  get_client_id sha256_hexdigest req = "ip:" +:+ address.
Proof.
  intros Hbearer Hf Hne Htok Htrim. unfold get_client_id.
  rewrite Hbearer, Hf. change (default "" (Some f)) with f.
  rewrite (split_hd_unique _ _ _ Htok), (strip_unique _ _ Htrim).
  by destruct f.
Qed.

End ResolverMore.

(** * The logging middleware *)
Section DictFacts.
Import PyDict.
Implicit Types (d pairs : list (string * string)) (k v name : string).

Lemma headers_lookup_app name d d' :
  headers_lookup name (d ++ d')%list
  = match headers_lookup name d with
    | Some v => Some v
    | None => headers_lookup name d'
    end.
Proof.
  induction d as [|[k v] d IH]; simpl; [done|].
  by destruct (k =? name)%string.
Qed.

Lemma headers_lookup_None name d :
  headers_lookup name d = None <-> name ∉ map fst d.
Proof.
  induction d as [|[k v] d IH]; simpl.
  - split; [intros _; apply not_elem_of_nil|done].
  - rewrite not_elem_of_cons.
    destruct (k =? name)%string eqn:Hk.
    + apply String.eqb_eq in Hk. split; [done|]. intros [? _]. congruence.
    + apply String.eqb_neq in Hk. rewrite IH. split; [by split|by intros [_ ?]].
Qed.

Lemma lookup_setitem name k v d :
  headers_lookup name (setitem k v d)
  = if (k =? name)%string then Some v else headers_lookup name d.
Proof.
  induction d as [|[k' v'] d IH]; simpl; [done|].
  destruct (k' =? k)%string eqn:Hk'; simpl.
  - apply String.eqb_eq in Hk' as ->. by destruct (k =? name)%string.
  - rewrite IH. destruct (k' =? name)%string eqn:Hn; [|done].
    apply String.eqb_eq in Hn as ->. by rewrite String.eqb_sym, Hk'.
Qed.

Lemma setitem_fresh k v d : k ∉ map fst d -> setitem k v d = (d ++ [(k, v)])%list.
Proof.
  induction d as [|[k' v'] d IH]; simpl; [done|].
  rewrite not_elem_of_cons. intros [Hne Hd].
  destruct (k' =? k)%string eqn:Hk'.
  - apply String.eqb_eq in Hk'. congruence.
  - by rewrite IH.
Qed.

Lemma setitem_keys_present k v d : k ∈ map fst d -> map fst (setitem k v d) = map fst d.
Proof.
  induction d as [|[k' v'] d IH]; simpl; [by intros ?%elem_of_nil|].
  destruct (k' =? k)%string eqn:Hk'; simpl; [done|].
  apply String.eqb_neq in Hk'. rewrite elem_of_cons. intros [?|Hin]; [congruence|].
  by rewrite IH.
Qed.

Lemma setitem_NoDup k v d : NoDup (map fst d) -> NoDup (map fst (setitem k v d)).
Proof.
  intros Hd. destruct (decide (k ∈ map fst d)) as [Hin|Hout].
  - by rewrite setitem_keys_present.
  - rewrite setitem_fresh, map_app by done. simpl.
    apply NoDup_app. split; [done|]. split.
    + intros x Hx ->%list_elem_of_singleton. done.
    + apply NoDup_singleton.
Qed.

Lemma fold_setitem_NoDup pairs d :
  NoDup (map fst d) ->
  NoDup (map fst (fold_left (fun d kv => setitem kv.1 kv.2 d) pairs d)).
Proof.
  revert d. induction pairs as [|[k v] pairs IH]; intros d Hd; simpl; [done|].
  by apply IH, setitem_NoDup.
Qed.

Lemma of_pairs_NoDup pairs : NoDup (map fst (of_pairs pairs)).
Proof. apply fold_setitem_NoDup. simpl. apply NoDup_nil_2. Qed.

Lemma lookup_fold_setitem name pairs d :
  headers_lookup name (fold_left (fun d kv => setitem kv.1 kv.2 d) pairs d)
  = match last_value name pairs with
    | Some v => Some v
    | None => headers_lookup name d
    end.
Proof.
  unfold last_value. revert d.
  induction pairs as [|[k v] pairs IH]; intros d; simpl; [done|].
  rewrite IH, headers_lookup_app, lookup_setitem. simpl.
  destruct (headers_lookup name (rev pairs)); [done|].
  by destruct (k =? name)%string.
Qed.

Lemma lookup_of_pairs name pairs :
  headers_lookup name (of_pairs pairs) = last_value name pairs.
Proof.
  unfold of_pairs. rewrite lookup_fold_setitem. simpl.
  by destruct (last_value name pairs).
Qed.

Lemma fold_setitem_distinct pairs d :
  NoDup (map fst (d ++ pairs)%list) ->
  fold_left (fun d kv => setitem kv.1 kv.2 d) pairs d = (d ++ pairs)%list.
Proof.
  revert d. induction pairs as [|[k v] pairs IH]; intros d Hd; simpl.
  - by rewrite app_nil_r.
  - assert (k ∉ map fst d) as Hfresh.
    { rewrite map_app in Hd. apply NoDup_app in Hd as (_ & Hdisj & _).
      intros Hin. apply (Hdisj k Hin). simpl. apply list_elem_of_here. }
    rewrite setitem_fresh by done. rewrite IH; [by rewrite <- app_assoc|].
    by rewrite <- app_assoc.
Qed.

Lemma of_pairs_distinct pairs : NoDup (map fst pairs) -> of_pairs pairs = pairs.
Proof. intros Hd. unfold of_pairs. by rewrite fold_setitem_distinct. Qed.

End DictFacts.

Section LoggingFacts.
Import LoggingMiddleware.
Implicit Types (request_id process_time name : string) (status : Z).

(** X11. On the start of a response the wrapper keeps the status and
    passes on a header list in which no name occurs twice and in which
    [x-request-id] is the request id and [x-process-time] the measured
    time, replacing any values the application sent under those
    names. *)
Theorem send_wrapper_tags_response request_id process_time status hdrs :
  exists headers,
    (send_wrapper request_id process_time (ResponseStart status hdrs)).2
    = ResponseStart status (Some headers)
    /\ NoDup (map fst headers)
    /\ headers_lookup "x-request-id" headers = Some request_id
    /\ headers_lookup "x-process-time" headers = Some process_time.
Proof.
  eexists. split; [reflexivity|]. split; [|split].
  - apply setitem_NoDup, setitem_NoDup, of_pairs_NoDup.
  - by rewrite !lookup_setitem.
  - by rewrite lookup_setitem.
Qed.

Lemma filter_name_absent name (d : list (string * string)) :
  name ∉ map fst d -> filter (fun kv : string * string => kv.1 = name) d = [].
Proof.
  induction d as [|[k v] d IH]; simpl; [done|].
  rewrite not_elem_of_cons. intros [Hne Hd].
  rewrite filter_cons_False by (simpl; congruence). by apply IH.
Qed.

(** X12. For every other header name the wrapper passes on exactly
    one value, the last one the application gave: a name sent several
    times (two [set-cookie] headers) keeps only its last value, and a
    name not sent stays absent. *)
Theorem send_wrapper_keeps_last_value request_id process_time status hdrs name :
  name <> "x-request-id" ->
  name <> "x-process-time" ->
  exists headers,
    (send_wrapper request_id process_time (ResponseStart status hdrs)).2
    = ResponseStart status (Some headers)
    /\ headers_lookup name headers = last_value name (default [] hdrs)
    /\ (length (filter (fun kv => kv.1 = name) headers) <= 1)%nat.
Proof.
  intros Hid Htime. eexists. split; [reflexivity|]. split.
  - rewrite !lookup_setitem.
    rewrite (proj2 (String.eqb_neq _ _)) by done.
    rewrite (proj2 (String.eqb_neq _ _)) by done.
    apply lookup_of_pairs.
  - set (headers := PyDict.setitem _ _ _).
    assert (NoDup (map fst headers)) as Hnodup
      by apply setitem_NoDup, setitem_NoDup, of_pairs_NoDup.
    clearbody headers. induction headers as [|[k v] headers IH]; [simpl; lia|].
    simpl in Hnodup. apply NoDup_cons in Hnodup as [Hk Hrest].
    rewrite filter_cons. case_decide as Hname; simpl in *; [|by apply IH].
    subst k. by rewrite filter_name_absent.
Qed.

(** X13. When the application's header names are distinct and are not
    the two the middleware sets, the wrapper passes the headers on in
    their order and adds [x-request-id] and [x-process-time] at the
    end. *)
Theorem send_wrapper_appends request_id process_time status hdrs :
  NoDup (map fst hdrs) ->
  "x-request-id" ∉ map fst hdrs ->
  "x-process-time" ∉ map fst hdrs ->
  (send_wrapper request_id process_time (ResponseStart status (Some hdrs))).2
  = ResponseStart status
      (Some (hdrs ++ [("x-request-id", request_id); ("x-process-time", process_time)])%list).
Proof.
  intros Hnodup Hid Htime. simpl.
  rewrite of_pairs_distinct by done.
  rewrite (setitem_fresh "x-request-id") by done.
  rewrite setitem_fresh.
  - by rewrite <- app_assoc.
  - rewrite map_app. simpl. rewrite elem_of_app. intros [?|Hin]; [done|].
    by apply list_elem_of_singleton in Hin.
Qed.

Lemma send_each_length request_id elapsed i messages :
  length (send_each request_id elapsed i messages).2 = length messages.
Proof.
  revert i. induction messages as [|m ms IH]; intros i; simpl; [done|].
  destruct (send_wrapper _ _ m) as [lines m'].
  specialize (IH (Datatypes.S i)).
  destruct (send_each _ _ _ ms) as [lines' ms']. simpl in *. by rewrite IH.
Qed.

Lemma send_each_lookup request_id elapsed i messages (j : nat) m :
  messages !! j = Some m ->
  (send_each request_id elapsed i messages).2 !! j
  = Some (send_wrapper request_id (elapsed (i + j)%nat) m).2.
Proof.
  revert i j. induction messages as [|m0 ms IH]; intros i j; [done|].
  simpl. specialize (IH (Datatypes.S i)).
  destruct (send_wrapper request_id (elapsed i) m0) as [lines m'] eqn:Hw.
  destruct (send_each _ _ _ ms) as [lines' ms']. simpl in *.
  destruct j as [|j]; simpl.
  - intros [= <-]. by rewrite Nat.add_0_r, Hw.
  - intros Hj. rewrite (IH j Hj).
    by replace (i + Datatypes.S j)%nat with (Datatypes.S i + j)%nat by lia.
Qed.

(** X15. The logging middleware passes on as many messages as the
    application sends, in the same order; a message that is not the
    start of a response is passed on unchanged, and the start of a
    response keeps its status. *)
Theorem logging_preserves_messages method (req : Request) uuid_text elapsed messages :
  length (__call__ method req uuid_text elapsed messages).2 = length messages
  /\ forall (j : nat) m,
       messages !! j = Some m ->
       match m with
       | ResponseStart status _ =>
           exists headers,
             (__call__ method req uuid_text elapsed messages).2 !! j
             = Some (ResponseStart status headers)
       | _ => (__call__ method req uuid_text elapsed messages).2 !! j = Some m
       end.
Proof.
  unfold __call__.
  destruct (negb (scope_type req =? "http")%string); simpl.
  - split; [done|]. intros j [status hdrs| |] Hj; eauto.
  - pose proof (send_each_length (take_prefix 8 uuid_text) elapsed 0 messages) as Hlen.
    pose proof (send_each_lookup (take_prefix 8 uuid_text) elapsed 0 messages) as Hlook.
    destruct (send_each _ _ _ messages) as [lines sent]. simpl in *.
    split; [done|]. intros j m Hj. rewrite (Hlook j m Hj).
    destruct m; simpl; eauto.
Qed.

End LoggingFacts.

(** * The stack of [main.py] *)
Section StackFacts.
Context {S : Type} `{RedisClient S}.
Variable sha256_hexdigest : string -> string.
Variable settings : Settings.

(** X14. A request over the limit is answered through the logging
    middleware: what reaches the client is the start of a 429 response
    whose headers are the two of the rejection followed by
    [x-request-id] and [x-process-time], and then the body; the
    application is not called, and the log has the request line and the
    response line. *)
Theorem rejection_through_stack inner method (req : Request) uuid_text elapsed now (s : S) :
  scope_type req = "http" ->
  path req ∉ exempt_paths ->
  (check_rate_limit settings (get_client_id sha256_hexdigest req) now s).2 = false ->
  (stack sha256_hexdigest settings inner method req uuid_text elapsed now s).2.2
  = [ResponseStart 429
       (Some (raw_headers (rejection settings)
              ++ [("x-request-id", take_prefix 8 uuid_text);
                  ("x-process-time", elapsed 0%nat)])%list);
     ResponseBody (render (content (rejection settings)))]
  /\ length (stack sha256_hexdigest settings inner method req uuid_text elapsed now s).2.1
     = 2%nat.
Proof.
  intros Hhttp Hpath Hreject. unfold stack, rate_limited, __call__.
  rewrite Hhttp; simpl. rewrite bool_decide_eq_false_2 by done.
  destruct (check_rate_limit _ _ _ _) as [s' b]; simpl in *. subst b. simpl.
  unfold LoggingMiddleware.__call__. rewrite Hhttp. simpl. done.
Qed.

End StackFacts.

(** * Instances *)

Lemma one_admission_set :
  Redis.zset_of (rate_key alice) one_admission = {[PyStr.str 1000 := 1000]}.
Proof. vm_compute; reflexivity. Qed.

Lemma two_admissions_set :
  Redis.zset_of (rate_key alice) two_admissions
  = <[PyStr.str 1001 := 1001]> {[PyStr.str 1000 := 1000]}.
Proof. vm_compute; reflexivity. Qed.

Lemma two_admissions_reachable : reachable (cfg 2 60) two_admissions.
Proof. unfold two_admissions, one_admission. apply reach_call, reach_call, reach_empty. Qed.

Lemma stored_entries_bounded_witness :
  reachable (cfg 2 60) two_admissions
  /\ Z.of_nat (size (Redis.zset_of (rate_key alice) two_admissions))
     <= Z.max 0 (RATE_LIMIT_REQUESTS (cfg 2 60)).
Proof.
  split; [exact two_admissions_reachable|].
  exact (stored_entries_bounded (cfg 2 60) two_admissions (rate_key alice)
           two_admissions_reachable).
Defined.

Lemma stored_within_window_witness :
  (forall member score,
      Redis.zset_of (rate_key alice) one_admission !! member = Some score ->
      0 <= score <= 1030)
  /\ forall member score,
       Redis.zset_of (rate_key alice) (check_rate_limit (cfg 2 60) alice 1030 one_admission).1
         !! member = Some score ->
       1030 - RATE_LIMIT_PERIOD (cfg 2 60) < score <= 1030.
Proof.
  assert (forall member score,
            Redis.zset_of (rate_key alice) one_admission !! member = Some score ->
            0 <= score <= 1030) as Hpast.
  { intros member score. rewrite one_admission_set.
    intros [_ <-]%lookup_singleton_Some. lia. }
  split; [exact Hpast|].
  exact (stored_within_window (cfg 2 60) alice 1030 one_admission Hpast).
Defined.

Lemma admitted_after_quiet_window_witness :
  1 <= RATE_LIMIT_REQUESTS (cfg 2 60)
  /\ (forall member score,
        Redis.zset_of (rate_key alice) two_admissions !! member = Some score ->
        0 <= score <= 1001)
  /\ 1001 + RATE_LIMIT_PERIOD (cfg 2 60) <= 1061
  /\ (check_rate_limit (cfg 2 60) alice 1061 two_admissions).2 = true.
Proof.
  assert (1 <= RATE_LIMIT_REQUESTS (cfg 2 60)) as Hlimit by (simpl; lia).
  assert (forall member score,
            Redis.zset_of (rate_key alice) two_admissions !! member = Some score ->
            0 <= score <= 1001) as Hold.
  { intros member score. rewrite two_admissions_set.
    intros [[_ <-]|[_ [_ <-]%lookup_singleton_Some]]%lookup_insert_Some; lia. }
  assert (1001 + RATE_LIMIT_PERIOD (cfg 2 60) <= 1061) as Hquiet by (simpl; lia).
  split; [exact Hlimit|]. split; [exact Hold|]. split; [exact Hquiet|].
  exact (admitted_after_quiet_window (cfg 2 60) alice 1061 1001 two_admissions
           Hlimit Hold Hquiet).
Defined.

Lemma admit_records_and_refreshes_witness :
  0 < RATE_LIMIT_PERIOD (cfg 2 60)
  /\ post_prune_count (cfg 2 60) alice 1001 one_admission < RATE_LIMIT_REQUESTS (cfg 2 60)
  /\ Redis.ttls (check_rate_limit (cfg 2 60) alice 1001 one_admission).1 !! rate_key alice
     = Some (RATE_LIMIT_PERIOD (cfg 2 60)).
Proof.
  assert (0 < RATE_LIMIT_PERIOD (cfg 2 60)) as Hperiod by (simpl; lia).
  assert (post_prune_count (cfg 2 60) alice 1001 one_admission
          < RATE_LIMIT_REQUESTS (cfg 2 60)) as Hroom
    by (apply Z.ltb_lt; vm_compute; reflexivity).
  split; [exact Hperiod|]. split; [exact Hroom|].
  exact (proj2 (proj2 (admit_records_and_refreshes (cfg 2 60) alice 1001 one_admission
                         Hperiod Hroom))).
Defined.

Lemma fresh_key_admitted_iff_witness :
  Redis.zsets Redis.empty !! rate_key alice = None
  /\ ((check_rate_limit (cfg 2 60) alice 1000 Redis.empty).2 = true
      <-> 1 <= RATE_LIMIT_REQUESTS (cfg 2 60)).
Proof.
  assert (Redis.zsets Redis.empty !! rate_key alice = None) as Hfresh by apply lookup_empty.
  split; [exact Hfresh|].
  exact (fresh_key_admitted_iff (cfg 2 60) alice 1000 Redis.empty Hfresh).
Defined.

Lemma gate_forwards_on_store_error_witness :
  store_error (cfg 2 60) (get_client_id no_hash proxied_request) 1002
    (mkFlaky two_admissions 0)
  /\ (__call__ no_hash (cfg 2 60) proxied_request 1002 (mkFlaky two_admissions 0)).2
     = Forwarded.
Proof.
  assert (store_error (cfg 2 60) (get_client_id no_hash proxied_request) 1002
            (mkFlaky two_admissions 0)) as Herr
    by (eapply prune_raises; reflexivity).
  split; [exact Herr|].
  exact (gate_forwards_on_store_error no_hash (cfg 2 60) proxied_request 1002 _ Herr).
Defined.

Lemma expire_failure_leaves_record_witness :
  post_prune_count (cfg 2 60) alice 1000 Redis.empty < RATE_LIMIT_REQUESTS (cfg 2 60)
  /\ (check_rate_limit (cfg 2 60) alice 1000 (mkFlaky Redis.empty 3)).2 = true.
Proof.
  assert (post_prune_count (cfg 2 60) alice 1000 Redis.empty
          < RATE_LIMIT_REQUESTS (cfg 2 60)) as Hroom
    by (apply Z.ltb_lt; vm_compute; reflexivity).
  split; [exact Hroom|].
  exact (proj1 (expire_failure_leaves_record (cfg 2 60) alice 1000 Redis.empty Hroom)).
Defined.

Lemma gate_responds_only_429_witness :
  (__call__ no_hash (cfg 2 60) proxied_request 1002 two_admissions).2
  = Responded (rejection (cfg 2 60))
  /\ status_code (rejection (cfg 2 60)) = 429.
Proof.
  assert ((__call__ no_hash (cfg 2 60) proxied_request 1002 two_admissions).2
          = Responded (rejection (cfg 2 60))) as Hresp by (vm_compute; reflexivity).
  split; [exact Hresp|].
  exact (proj1 (proj2 (gate_responds_only_429 no_hash (cfg 2 60) proxied_request 1002
                         two_admissions _ Hresp))).
Defined.

Lemma bearer_key_witness :
  has_bearer bearer_request = true
  /\ exists a,
       headers_get "Authorization" bearer_request = Some a
       /\ PyStr.startswith "Bearer " a = true
       /\ get_client_id no_hash bearer_request = "user:" +:+ take_prefix 16 (no_hash a)
       /\ forall req',
            has_bearer req' = false ->
            get_client_id no_hash req' <> get_client_id no_hash bearer_request.
Proof.
  assert (has_bearer bearer_request = true) as Hbearer by reflexivity.
  split; [exact Hbearer|].
  exact (bearer_key no_hash bearer_request Hbearer).
Defined.

Lemma forwarded_for_decides_key_witness :
  has_bearer proxied_request = false
  /\ headers_get "X-Forwarded-For" proxied_request = Some "203.0.113.5, 10.0.0.1"
  /\ "203.0.113.5, 10.0.0.1" <> ""
  /\ first_token "," "203.0.113.5, 10.0.0.1" "203.0.113.5"
  /\ trimmed "203.0.113.5" "203.0.113.5"
  /\ get_client_id no_hash proxied_request = "ip:" +:+ "203.0.113.5".
Proof.
  assert (has_bearer proxied_request = false) as Hbearer by reflexivity.
  assert (headers_get "X-Forwarded-For" proxied_request = Some "203.0.113.5, 10.0.0.1")
    as Hf by reflexivity.
  assert ("203.0.113.5, 10.0.0.1" <> "") as Hne by discriminate.
  assert (first_token "," "203.0.113.5, 10.0.0.1" "203.0.113.5") as Htok
    by exact (split_hd_first_token "," "203.0.113.5, 10.0.0.1").
  assert (trimmed "203.0.113.5" "203.0.113.5") as Htrim
    by exact (strip_trimmed "203.0.113.5").
  repeat (split; [assumption|]).
  exact (forwarded_for_decides_key no_hash proxied_request _ _ _ Hbearer Hf Hne Htok Htrim).
Defined.

Lemma send_wrapper_keeps_last_value_witness :
  "set-cookie" <> "x-request-id"
  /\ "set-cookie" <> "x-process-time"
  /\ exists headers,
       (LoggingMiddleware.send_wrapper "1b4e28ba" "0.004"
          (ResponseStart 200 (Some cookie_headers))).2
       = ResponseStart 200 (Some headers)
       /\ headers_lookup "set-cookie" headers = last_value "set-cookie" cookie_headers
       /\ (length (filter (fun kv : string * string => kv.1 = "set-cookie") headers) <= 1)%nat.
Proof.
  assert ("set-cookie" <> "x-request-id") as Hid by discriminate.
  assert ("set-cookie" <> "x-process-time") as Htime by discriminate.
  split; [exact Hid|]. split; [exact Htime|].
  exact (send_wrapper_keeps_last_value "1b4e28ba" "0.004" 200 (Some cookie_headers)
           "set-cookie" Hid Htime).
Defined.

Lemma send_wrapper_appends_witness :
  NoDup (map fst plain_headers)
  /\ ("x-request-id" ∉ map fst plain_headers)
  /\ ("x-process-time" ∉ map fst plain_headers)
  /\ (LoggingMiddleware.send_wrapper "1b4e28ba" "0.004"
        (ResponseStart 200 (Some plain_headers))).2
     = ResponseStart 200
         (Some (plain_headers ++ [("x-request-id", "1b4e28ba"); ("x-process-time", "0.004")])%list).
Proof.
  assert (NoDup (map fst plain_headers)) as Hnodup
    by (apply (bool_decide_eq_true_1 _); vm_compute; reflexivity).
  assert ("x-request-id" ∉ map fst plain_headers) as Hid
    by (apply (bool_decide_eq_false_1 _); vm_compute; reflexivity).
  assert ("x-process-time" ∉ map fst plain_headers) as Htime
    by (apply (bool_decide_eq_false_1 _); vm_compute; reflexivity).
  split; [exact Hnodup|]. split; [exact Hid|]. split; [exact Htime|].
  exact (send_wrapper_appends "1b4e28ba" "0.004" 200 plain_headers Hnodup Hid Htime).
Defined.

Lemma rejection_through_stack_witness :
  scope_type proxied_request = "http"
  /\ (path proxied_request ∉ exempt_paths)
  /\ (check_rate_limit (cfg 2 60) (get_client_id no_hash proxied_request) 1002
        two_admissions).2 = false
  /\ length (stack no_hash (cfg 2 60) [] "GET" proxied_request uuid_sample ms_sample 1002
               two_admissions).2.1 = 2%nat.
Proof.
  assert (scope_type proxied_request = "http") as Hhttp by reflexivity.
  assert (path proxied_request ∉ exempt_paths) as Hpath
    by (apply (bool_decide_eq_false_1 _); vm_compute; reflexivity).
  assert ((check_rate_limit (cfg 2 60) (get_client_id no_hash proxied_request) 1002
             two_admissions).2 = false) as Hreject by (vm_compute; reflexivity).
  split; [exact Hhttp|]. split; [exact Hpath|]. split; [exact Hreject|].
  exact (proj2 (rejection_through_stack no_hash (cfg 2 60) [] "GET" proxied_request
                  uuid_sample ms_sample 1002 two_admissions Hhttp Hpath Hreject)).
Defined.

Example cookies_collapse :
  (LoggingMiddleware.send_wrapper "1b4e28ba" "0.004"
     (ResponseStart 200 (Some cookie_headers))).2
  = ResponseStart 200
      (Some [("set-cookie", "b=2"); ("content-type", "text/html");
             ("x-request-id", "1b4e28ba"); ("x-process-time", "0.004")]).
Proof. reflexivity. Qed.

(** * What the counter does bound *)
Section WindowBound.
Import Redis.
Variable settings : Settings.
Hypothesis period_positive : 0 < RATE_LIMIT_PERIOD settings.
Implicit Types (r : db) (client_id : string) (now t : Z) (times : list Z).

Lemma entry_survives_call client_id now t r :
  now - RATE_LIMIT_PERIOD settings < t ->
  holds client_id r t ->
  holds client_id (check_rate_limit settings client_id now r).1 t.
Proof.
  unfold holds. intros Hlate Hin.
  assert (zset_of (rate_key client_id) (pruned settings client_id now r)
            !! PyStr.str t = Some t) as Hkept.
  { rewrite zset_of_pruned, map_lookup_filter_Some. split; [done|].
    unfold outside, window_start; simpl. lia. }
  rewrite check_rate_limit_redis. case_bool_decide; simpl; [done|].
  rewrite zset_of_recorded. case_decide; [lia|].
  destruct (decide (PyStr.str now = PyStr.str t)) as [Heq|Hne].
  - apply str_inj in Heq as ->. apply lookup_insert_eq.
  - by rewrite lookup_insert_ne.
Qed.

Lemma admitted_is_held client_id now r :
  (check_rate_limit settings client_id now r).2 = true ->
  holds client_id (check_rate_limit settings client_id now r).1 now.
Proof.
  unfold holds. rewrite check_rate_limit_redis. case_bool_decide; simpl; [done|].
  intros _. rewrite zset_of_recorded. case_decide; [lia|]. apply lookup_insert_eq.
Qed.

Lemma entry_survives_run client_id times t r :
  (forall now, now ∈ times -> now - RATE_LIMIT_PERIOD settings < t) ->
  holds client_id r t ->
  holds client_id (final_store settings client_id times r) t.
Proof.
  revert r. induction times as [|now times IH]; intros r Hlate Hin; simpl; [done|].
  apply IH.
  - intros now' Hnow'. apply Hlate. by apply list_elem_of_further.
  - apply entry_survives_call; [|done]. apply Hlate, list_elem_of_here.
Qed.

Lemma admitted_in_window_held client_id times bound r t :
  (forall now, now ∈ times -> now <= bound) ->
  t ∈ admitted_times settings client_id times r ->
  bound - RATE_LIMIT_PERIOD settings < t ->
  holds client_id (final_store settings client_id times r) t.
Proof.
  revert r. induction times as [|now times IH]; intros r Hbound; simpl.
  - by intros ?%elem_of_nil.
  - assert (forall now', now' ∈ times -> now' <= bound) as Hrest
      by (intros now' Hnow'; by apply Hbound, list_elem_of_further).
    pose proof (admitted_is_held client_id now r) as Hheld.
    destruct (check_rate_limit settings client_id now r) as [r' b]; simpl in *.
    destruct b.
    + intros [->|Hin]%elem_of_cons Hlate; [|by apply IH].
      apply entry_survives_run; [|by apply Hheld].
      intros now' Hnow'. specialize (Hrest now' Hnow'). lia.
    + by apply IH.
Qed.

Lemma final_store_reachable client_id times r :
  reachable settings r -> reachable settings (final_store settings client_id times r).
Proof.
  revert r. induction times as [|now times IH]; intros r Hr; simpl; [done|].
  by apply IH, reach_call.
Qed.

(** X17. With a positive window, after any history of calls for one
    client that ends with a call at [now] and has no call later than
    [now], the distinct seconds later than [now - windowSeconds] in
    which a call was admitted number at most the limit. *)
Theorem admitted_seconds_in_window_bounded client_id times now :
  (forall t, t ∈ times -> t <= now) ->
  Z.of_nat (size (seconds_since (now - RATE_LIMIT_PERIOD settings)
                    (admitted_times settings client_id (times ++ [now]) Redis.empty)))
  <= Z.max 0 (RATE_LIMIT_REQUESTS settings).
Proof.
  intros Hbound.
  set (history := (times ++ [now])%list).
  set (r := final_store settings client_id history Redis.empty).
  assert (reachable settings r) as Hreach
    by apply final_store_reachable, reach_empty.
  assert (seconds_since (now - RATE_LIMIT_PERIOD settings)
            (admitted_times settings client_id history Redis.empty)
          ⊆ seconds_of (zset_of (rate_key client_id) r)) as Hsub.
  { intros t. unfold seconds_since.
    rewrite elem_of_list_to_set, list_elem_of_filter. intros [Hlate Hin].
    apply elem_of_map_img. exists (PyStr.str t).
    apply (admitted_in_window_held client_id history now Redis.empty t); [|done..].
    intros t' [Ht'|Heq%list_elem_of_singleton]%elem_of_app; [by apply Hbound|lia]. }
  apply subseteq_size in Hsub.
  rewrite size_seconds_of in Hsub.
  - pose proof (reachable_size_bound settings r (rate_key client_id) Hreach). lia.
  - intros m1 m2 score. by apply well_keyed_one_per_second, reachable_well_keyed with settings.
Qed.

End WindowBound.

(** X16. A connection that is not on the http scope (a websocket) is
    handed to the application without any store command, whatever its
    path and headers are: it is never counted and never rejected. *)
Theorem other_scopes_bypass {S : Type} `{RedisClient S}
    (sha256_hexdigest : string -> string) (settings : Settings)
    (req : Request) (now : Z) (s : S) (n : nat) :
  scope_type req <> "http" ->
  __call__ sha256_hexdigest settings req now s = (s, Forwarded)
  /\ __call__ sha256_hexdigest settings req now (mkCounted s n)
     = (mkCounted s n, Forwarded).
Proof.
  intros Hscope%String.eqb_neq. unfold __call__. by rewrite Hscope.
Qed.

Lemma other_scopes_bypass_witness :
  scope_type websocket_request <> "http"
  /\ __call__ no_hash (cfg 2 60) websocket_request 1002 (mkCounted two_admissions 0)
     = (mkCounted two_admissions 0, Forwarded).
Proof.
  assert (scope_type websocket_request <> "http") as Hscope by discriminate.
  split; [exact Hscope|].
  exact (proj1 (other_scopes_bypass no_hash (cfg 2 60) websocket_request 1002
                  (mkCounted two_admissions 0) 0 Hscope)).
Defined.

Lemma admitted_seconds_in_window_bounded_witness :
  0 < RATE_LIMIT_PERIOD (cfg 2 60)
  /\ (forall t, t ∈ [1000; 1000; 1001] -> t <= 1002)
  /\ Z.of_nat (size (seconds_since (1002 - RATE_LIMIT_PERIOD (cfg 2 60))
                       (admitted_times (cfg 2 60) alice ([1000; 1000; 1001] ++ [1002])
                          Redis.empty)))
     <= Z.max 0 (RATE_LIMIT_REQUESTS (cfg 2 60)).
Proof.
  assert (0 < RATE_LIMIT_PERIOD (cfg 2 60)) as Hperiod by (simpl; lia).
  assert (forall t, t ∈ [1000; 1000; 1001] -> t <= 1002) as Hbound.
  { intros t Ht. repeat (apply elem_of_cons in Ht as [->|Ht]; [lia|]).
    by apply elem_of_nil in Ht. }
  split; [exact Hperiod|]. split; [exact Hbound|].
  exact (admitted_seconds_in_window_bounded (cfg 2 60) Hperiod alice [1000; 1000; 1001]
           1002 Hbound).
Defined.
